(** * Math Bubbles: the round/game state machine of [App.tsx]

    A shallow embedding of the React component [App]: the component
    state, its event handlers, the countdown interval and the one-shot
    timeouts, followed by the properties of validation, scoring, selection
    and the countdown.

    The repository holds the component twice: src/App.tsx, and an earlier
    copy without the onboarding tour.  The two agree line by line on the
    game logic; the copy is this machine with [isTourActive] false
    throughout (lemma [tour_stays_closed]).  Of the tour itself only what
    the game logic reads is modelled: the [isTourActive] cell and the
    [localStorage] flag, not the driver.js walk-through.

    Time is not measured: a pending timeout may fire at any later moment,
    and the interval may tick any number of times while it is installed.
    Every order of events the browser can produce is among those of the
    model.

    Numbers.  JavaScript numbers that only ever hold integers ([level],
    [score], [wrongAttempts]) are [Z].  [timeLeft] is an IEEE 754 binary64
    number, as in the browser: the countdown subtracts the double nearest
    to 0.1 with rounding to nearest, ties to even, and compares with that
    double.  An equation's [value] comes from gameLogic.ts, which is not
    part of the component; it is an exact rational here. *)

From Stdlib Require Import List String ZArith QArith Bool Lia.
From Stdlib Require Import SpecFloat.
From Stdlib Require Import Permutation.
Import ListNotations.

Local Open Scope Z_scope.

(** ** Numbers

    binary64: 53 bits of precision, exponents up to 1024.  A literal
    denotes the double nearest to it; for [0.1] and [7.4] that is the
    correctly rounded quotient of the integers 1 (74) and 10. *)
Definition number : Type := spec_float.

Definition prec : Z := 53.
Definition emax : Z := 1024.

Definition ofZ (z : Z) : number := binary_normalize prec emax z 0 false.

Definition n0 : number := S754_zero false.
Definition n15 : number := ofZ 15.
Definition n01 : number := SFdiv prec emax (ofZ 1) (ofZ 10).
Definition n74 : number := SFdiv prec emax (ofZ 74) (ofZ 10).

(** [x - y] and [x <= y] on doubles; a comparison with [NaN] is false. *)
Definition fsub (x y : number) : number := SFsub prec emax x y.
Definition fleb (x y : number) : bool := SFleb x y.

(** [Math.floor(x)] of a finite double, as an integer.  ([Math.floor]
    of [NaN] or of an infinity is not an integer; [timeLeft] is finite
    in every reachable state, see [reachable_countdown].) *)
Definition floor (x : number) : Z :=
  match x with
  | S754_finite sign m e =>
      let v := if sign then Z.neg m else Z.pos m in
      if 0 <=? e then v * 2 ^ e else v / 2 ^ (- e)
  | _ => 0
  end.

Definition number_eqb (x y : number) : bool :=
  match x, y with
  | S754_zero a, S754_zero b => Bool.eqb a b
  | S754_infinity a, S754_infinity b => Bool.eqb a b
  | S754_nan, S754_nan => true
  | S754_finite a m e, S754_finite b m' e' =>
      Bool.eqb a b && (m =? m')%positive && (e =? e')
  | _, _ => false
  end.

(** The countdown on the number alone: what the interval callback
    returns for [prev], and the values a round's [timeLeft] runs through
    from 15 until the callback returns 0. *)
Definition tickValue (prev : number) : number :=
  if fleb prev n01 then n0 else fsub prev n01.

Fixpoint countdownFrom (n : nat) (t : number) : list number :=
  match n with
  | O => [t]
  | S k => t :: countdownFrom k (tickValue t)
  end.

Definition countdownValues : list number := countdownFrom 151 n15.

(** ** Data *)

(** [Equation] of gameLogic.ts, as [App] uses it: [e.id] and [e.value]. *)
Record Equation : Type := mkEquation {
  id : string;
  expression : string;
  value : Q
}.

(** ['neutral' | 'correct' | 'wrong'] *)
Inductive Feedback : Type := neutral | correct | wrong.

Definition Feedback_eqb (a b : Feedback) : bool :=
  match a, b with
  | neutral, neutral | correct, correct | wrong, wrong => true
  | _, _ => false
  end.

(** The three callbacks the game hands to [setTimeout].  Each carries what
    its closure captured from the render in which it was created. *)
Inductive Callback : Type :=
| CbRestart (capturedLevel : Z)   (* handleTimeUp: startLevel(level) *)
| CbAdvance (capturedLevel : Z)   (* correct: setLevel(prev => prev + 1); startLevel(level + 1) *)
| CbResetFeedback.                (* wrong: setFeedbackStatus('neutral') *)

(** A pending [setTimeout]: its delay in milliseconds and its callback.
    No handler keeps the timer id, so none is ever cleared. *)
Record Timeout : Type := mkTimeout {
  delay : Z;
  callback : Callback
}.

(** The [useState] cells of [App], then what lives outside of them:
    the [localStorage] flag, the pending timeouts, whether the countdown
    interval of the timer effect is installed, and how many times
    [generateEquations] has been called (each call returns a new array, so
    this also identifies the array held in [equations]). *)
Record State : Type := mkState {
  isPlaying : bool;
  level : Z;
  score : Z;
  timeLeft : number;
  equations : list Equation;
  selectedIds : list string;
  gameOver : bool;
  wrongAttempts : Z;
  feedbackStatus : Feedback;
  isTourActive : bool;
  hasSeenTour : bool;
  timeouts : list Timeout;
  timerOn : bool;
  genCalls : nat
}.

(** ** State setters *)

Definition setIsPlaying (b : bool) (s : State) : State :=
  mkState b (level s) (score s) (timeLeft s) (equations s) (selectedIds s)
          (gameOver s) (wrongAttempts s) (feedbackStatus s) (isTourActive s)
          (hasSeenTour s) (timeouts s) (timerOn s) (genCalls s).

Definition setLevel (f : Z -> Z) (s : State) : State :=
  mkState (isPlaying s) (f (level s)) (score s) (timeLeft s) (equations s)
          (selectedIds s) (gameOver s) (wrongAttempts s) (feedbackStatus s)
          (isTourActive s) (hasSeenTour s) (timeouts s) (timerOn s) (genCalls s).

Definition setScore (f : Z -> Z) (s : State) : State :=
  mkState (isPlaying s) (level s) (f (score s)) (timeLeft s) (equations s)
          (selectedIds s) (gameOver s) (wrongAttempts s) (feedbackStatus s)
          (isTourActive s) (hasSeenTour s) (timeouts s) (timerOn s) (genCalls s).

Definition setTimeLeft (f : number -> number) (s : State) : State :=
  mkState (isPlaying s) (level s) (score s) (f (timeLeft s)) (equations s)
          (selectedIds s) (gameOver s) (wrongAttempts s) (feedbackStatus s)
          (isTourActive s) (hasSeenTour s) (timeouts s) (timerOn s) (genCalls s).

(** [setEquations] is only ever called on the result of a fresh
    [generateEquations] call, which is counted here. *)
Definition setEquations (es : list Equation) (s : State) : State :=
  mkState (isPlaying s) (level s) (score s) (timeLeft s) es
          (selectedIds s) (gameOver s) (wrongAttempts s) (feedbackStatus s)
          (isTourActive s) (hasSeenTour s) (timeouts s) (timerOn s)
          (S (genCalls s)).

Definition setSelectedIds (f : list string -> list string) (s : State) : State :=
  mkState (isPlaying s) (level s) (score s) (timeLeft s) (equations s)
          (f (selectedIds s)) (gameOver s) (wrongAttempts s) (feedbackStatus s)
          (isTourActive s) (hasSeenTour s) (timeouts s) (timerOn s) (genCalls s).

Definition setGameOver (b : bool) (s : State) : State :=
  mkState (isPlaying s) (level s) (score s) (timeLeft s) (equations s)
          (selectedIds s) b (wrongAttempts s) (feedbackStatus s)
          (isTourActive s) (hasSeenTour s) (timeouts s) (timerOn s) (genCalls s).

Definition setWrongAttempts (f : Z -> Z) (s : State) : State :=
  mkState (isPlaying s) (level s) (score s) (timeLeft s) (equations s)
          (selectedIds s) (gameOver s) (f (wrongAttempts s)) (feedbackStatus s)
          (isTourActive s) (hasSeenTour s) (timeouts s) (timerOn s) (genCalls s).

Definition setFeedbackStatus (fb : Feedback) (s : State) : State :=
  mkState (isPlaying s) (level s) (score s) (timeLeft s) (equations s)
          (selectedIds s) (gameOver s) (wrongAttempts s) fb
          (isTourActive s) (hasSeenTour s) (timeouts s) (timerOn s) (genCalls s).

Definition setIsTourActive (b : bool) (s : State) : State :=
  mkState (isPlaying s) (level s) (score s) (timeLeft s) (equations s)
          (selectedIds s) (gameOver s) (wrongAttempts s) (feedbackStatus s)
          b (hasSeenTour s) (timeouts s) (timerOn s) (genCalls s).

(** [localStorage.setItem('hasSeenTour', 'true')] / [removeItem]. *)
Definition setHasSeenTour (b : bool) (s : State) : State :=
  mkState (isPlaying s) (level s) (score s) (timeLeft s) (equations s)
          (selectedIds s) (gameOver s) (wrongAttempts s) (feedbackStatus s)
          (isTourActive s) b (timeouts s) (timerOn s) (genCalls s).

(** [setTimeout(cb, ms)] *)
Definition setTimeout (cb : Callback) (ms : Z) (s : State) : State :=
  mkState (isPlaying s) (level s) (score s) (timeLeft s) (equations s)
          (selectedIds s) (gameOver s) (wrongAttempts s) (feedbackStatus s)
          (isTourActive s) (hasSeenTour s) (timeouts s ++ [mkTimeout ms cb])
          (timerOn s) (genCalls s).

Definition setTimeouts (ts : list Timeout) (s : State) : State :=
  mkState (isPlaying s) (level s) (score s) (timeLeft s) (equations s)
          (selectedIds s) (gameOver s) (wrongAttempts s) (feedbackStatus s)
          (isTourActive s) (hasSeenTour s) ts (timerOn s) (genCalls s).

Definition setTimerOn (b : bool) (s : State) : State :=
  mkState (isPlaying s) (level s) (score s) (timeLeft s) (equations s)
          (selectedIds s) (gameOver s) (wrongAttempts s) (feedbackStatus s)
          (isTourActive s) (hasSeenTour s) (timeouts s) b (genCalls s).

(** [clearInterval(timer)] inside the countdown callback. *)
Definition clearInterval (s : State) : State := setTimerOn false s.

(** ** Validation: the pure part of [validateSelection] *)

(** [x || 0] on a number that may be [undefined]: [undefined] and [0]
    are falsy. *)
Definition orZero (x : option Q) : Q :=
  match x with
  | Some v => if Qeq_bool v 0 then 0%Q else v
  | None => 0%Q
  end.

(** [equations.find(e => e.id === id)?.value || 0] *)
Definition resolve (eqs : list Equation) (i : string) : Q :=
  orZero (option_map value (find (fun e => String.eqb (id e) i) eqs)).

(** [selected.map(id => ...)] *)
Definition selectedValues (eqs : list Equation) (selected : list string) : list Q :=
  map (resolve eqs) selected.

(** [a <= b] where either side may be [undefined] (an index past the end
    of the array): the comparison is then [false]. *)
Definition js_le (a b : option Q) : bool :=
  match a, b with
  | Some x, Some y => Qle_bool x y
  | _, _ => false
  end.

(** [selectedValues[0] <= selectedValues[1] && selectedValues[1] <= selectedValues[2]] *)
Definition isCorrect (eqs : list Equation) (selected : list string) : bool :=
  let vs := selectedValues eqs selected in
  js_le (nth_error vs 0) (nth_error vs 1) && js_le (nth_error vs 1) (nth_error vs 2).

(** [selectedIds.includes(id)] *)
Definition includes (l : list string) (i : string) : bool :=
  existsb (String.eqb i) l.

(** ** What is drawn

    The props [App] hands to each [Bubble], and which screen it returns. *)

(** [l.indexOf(i)]: the first position of [i], or [-1]. *)
Fixpoint indexOf (l : list string) (i : string) : Z :=
  match l with
  | [] => -1
  | x :: l' =>
      if String.eqb x i then 0
      else let r := indexOf l' i in if r =? -1 then -1 else r + 1
  end.

Record BubbleProps : Type := mkBubbleProps {
  equation : Equation;
  isSelected : bool;
  order : Z;
  status : Feedback
}.

(** [<Bubble equation={eq} isSelected={selectedIds.includes(eq.id)}
      order={selectedIds.indexOf(eq.id) + 1}
      status={selectedIds.length === 3 && selectedIds.includes(eq.id)
              ? feedbackStatus : 'neutral'} />] *)
Definition bubbleProps (s : State) (eq : Equation) : BubbleProps :=
  mkBubbleProps eq
    (includes (selectedIds s) (id eq))
    (indexOf (selectedIds s) (id eq) + 1)
    (if (List.length (selectedIds s) =? 3)%nat && includes (selectedIds s) (id eq)
     then feedbackStatus s else neutral).

(** The start screen while [!isPlaying]; otherwise the game box, which
    shakes while the feedback is [wrong], the bubbles, and the game-over
    overlay when [gameOver]. *)
Inductive Screen : Type :=
| StartScreen
| GameScreen (shake : bool) (bubbles : list BubbleProps) (overlay : bool).

Definition render (s : State) : Screen :=
  if negb (isPlaying s) then StartScreen
  else GameScreen (Feedback_eqb (feedbackStatus s) wrong)
                  (map (bubbleProps s) (equations s))
                  (gameOver s).

(** ** A batch and a generator to run the component on

    Three equations with the values 2, 5 and 9, displayed in the order
    A, B, C, the same batch displayed in another order, and a generator
    that returns the first batch at every call. *)
Definition eqA : Equation := mkEquation "A" "1 + 1" 2.
Definition eqB : Equation := mkEquation "B" "2 + 3" 5.
Definition eqC : Equation := mkEquation "C" "4 + 5" 9.

Definition sampleBatch : list Equation := [eqA; eqB; eqC].
Definition sampleBatchReordered : list Equation := [eqB; eqA; eqC].

Definition sampleGenerate (calls : nat) (currentLevel : Z) : list Equation :=
  sampleBatch.



(** A round in progress at level 3 with 7.4 seconds left, the ids of
    [selected] tapped so far; and a round at level 2 whose countdown has
    come down to 0.1. *)
Definition roundState (selected : list string) : State :=
  mkState true 3 60 n74 sampleBatch selected false 0 neutral false true [] true 3.

Definition expiringState : State :=
  mkState true 2 25 n01 sampleBatch ["A"%string] false 0 neutral false true [] true 2.

(** A round at level 2 with two ids tapped and 0.1 seconds left. *)
Definition lastMomentState : State :=
  mkState true 2 25 n01 sampleBatch ["A"%string; "B"%string] false 0 neutral
          false true [] true 2.

(** ** The component *)

Section App.

(** [generateEquations] is imported from gameLogic.ts.  It draws random
    numbers, so the model gives it the number of earlier calls as well as
    the level. *)
Variable generateEquations : nat -> Z -> list Equation.

Definition startLevel (currentLevel : Z) (s : State) : State :=
  let s := setEquations (generateEquations (genCalls s) currentLevel) s in
  let s := setSelectedIds (fun _ => []) s in
  let s := setTimeLeft (fun _ => n15) s in
  setFeedbackStatus neutral s.

(** [c] is the render the handler was created in; when the handler runs it
    is the current state. *)
Definition startGame (c : State) : State :=
  let s := setIsPlaying true c in
  let s := setGameOver false s in
  let s := setScore (fun _ => 0) s in
  let s := setLevel (fun _ => 1) s in
  let s := setWrongAttempts (fun _ => 0) s in
  let s := startLevel 1 s in
  if negb (hasSeenTour c) then setIsTourActive true s else s.

Definition endTour (c : State) : State :=
  let s := setIsTourActive false c in
  setHasSeenTour true s.

(** The "Reset Tour" button of the footer. *)
Definition resetTour (c : State) : State :=
  let s := setHasSeenTour false c in
  setIsTourActive true s.

Definition handleTimeUp (c : State) (s : State) : State :=
  let s := setWrongAttempts (fun prev => prev + 1) s in
  let s := setFeedbackStatus wrong s in
  setTimeout (CbRestart (level c)) 1000 s.

Definition handleStopGame (c : State) : State :=
  setGameOver true c.

(** The body of the [setInterval] callback. *)
Definition tick (c : State) : State :=
  if fleb (timeLeft c) n01 then
    let s := clearInterval c in
    let s := handleTimeUp c s in
    setTimeLeft (fun _ => n0) s
  else
    setTimeLeft (fun prev => fsub prev n01) c.

Definition validateSelection (c : State) (selected : list string) (s : State) : State :=
  if isCorrect (equations c) selected then
    let s := setFeedbackStatus correct s in
    let s := setScore (fun prev => prev + (level c * 10) + floor (timeLeft c)) s in
    setTimeout (CbAdvance (level c)) 1000 s
  else
    let s := setFeedbackStatus wrong s in
    let s := setWrongAttempts (fun prev => prev + 1) s in
    setTimeout CbResetFeedback 500 s.

Definition handleBubbleClick (i : string) (c : State) : State :=
  if gameOver c || negb (Feedback_eqb (feedbackStatus c) neutral) || isTourActive c then c
  else if includes (selectedIds c) i then
    setSelectedIds (fun prev => filter (fun selectedId => negb (String.eqb selectedId i)) prev) c
  else
    let newSelected := selectedIds c ++ [i] in
    let s := setSelectedIds (fun _ => newSelected) c in
    if (List.length newSelected =? 3)%nat then validateSelection c newSelected s else s.

(** What a timeout does when its delay has elapsed. *)
Definition runCallback (cb : Callback) (s : State) : State :=
  match cb with
  | CbRestart lvl => startLevel lvl s
  | CbAdvance lvl =>
      let s := setLevel (fun prev => prev + 1) s in
      startLevel (lvl + 1) s
  | CbResetFeedback => setFeedbackStatus neutral s
  end.

(** Removing the [n]-th pending timeout. *)
Fixpoint removeNth {A : Type} (n : nat) (l : list A) : list A :=
  match n, l with
  | _, [] => []
  | O, _ :: l' => l'
  | S n', x :: l' => x :: removeNth n' l'
  end.

Definition fireTimeout (n : nat) (s : State) : State :=
  match nth_error (timeouts s) n with
  | Some t => runCallback (callback t) (setTimeouts (removeNth n (timeouts s)) s)
  | None => s
  end.

(** ** The timer effect

    [useEffect(..., [isPlaying, gameOver, level, equations, isTourActive])]:
    after a render in which one of the dependencies changed, the cleanup
    clears the interval and the effect installs a new one unless
    [!isPlaying || gameOver || isTourActive]. *)
Definition depsChanged (before after : State) : bool :=
  negb (Bool.eqb (isPlaying before) (isPlaying after)
        && Bool.eqb (gameOver before) (gameOver after)
        && (level before =? level after)
        && (genCalls before =? genCalls after)%nat
        && Bool.eqb (isTourActive before) (isTourActive after)).

Definition timerGuard (s : State) : bool :=
  isPlaying s && negb (gameOver s) && negb (isTourActive s).

Definition commit (before after : State) : State :=
  if depsChanged before after then setTimerOn (timerGuard after) after else after.

(** ** Events *)

Inductive Event : Type :=
| EvStartGame
| EvStopGame
| EvBubbleClick (i : string)
| EvTick
| EvTimeout (n : nat)
| EvResetTour
| EvEndTour.

Definition handle (ev : Event) (s : State) : State :=
  match ev with
  | EvStartGame => startGame s
  | EvStopGame => handleStopGame s
  | EvBubbleClick i => handleBubbleClick i s
  | EvTick => tick s
  | EvTimeout n => fireTimeout n s
  | EvResetTour => resetTour s
  | EvEndTour => endTour s
  end.

Definition step (ev : Event) (s : State) : State := commit s (handle ev s).

(** When an event can happen: the start button is on the start screen and
    on the game-over overlay; the stop button, the bubbles and the tour
    button are on the playing screen; the interval fires while it is
    installed; a timeout fires if it is pending; the tour can only be left
    once it runs. *)
Definition enabled (ev : Event) (s : State) : bool :=
  match ev with
  | EvStartGame => negb (isPlaying s) || gameOver s
  | EvStopGame => isPlaying s
  | EvBubbleClick _ => isPlaying s
  | EvTick => timerOn s
  | EvTimeout n => match nth_error (timeouts s) n with Some _ => true | None => false end
  | EvResetTour => isPlaying s
  | EvEndTour => isPlaying s && isTourActive s
  end.

(** The initial [useState] values; the [localStorage] flag is whatever an
    earlier visit left. *)
Definition initial (seenTour : bool) : State :=
  mkState false 1 0 n15 [] [] false 0 neutral false seenTour [] false 0.

Inductive reachable : State -> Prop :=
| reachable_initial : forall seenTour, reachable (initial seenTour)
| reachable_step : forall s ev,
    reachable s -> enabled ev s = true -> reachable (step ev s).

(** Running a list of events, skipping those that cannot happen. *)
Fixpoint run (evs : list Event) (s : State) : State :=
  match evs with
  | [] => s
  | ev :: evs' => run evs' (if enabled ev s then step ev s else s)
  end.


(** ** Looking an id up in a batch *)

Lemma find_id_none (eqs : list Equation) (i : string) :
  (forall e, In e eqs -> id e <> i) ->
  find (fun e => String.eqb (id e) i) eqs = None.
Proof.
  induction eqs as [|e eqs IH]; intros Hno; simpl; [reflexivity|].
  destruct (String.eqb_spec (id e) i) as [Heq|_].
  - exfalso. apply (Hno e); [now left | exact Heq].
  - apply IH. intros e' Hin. apply Hno. now right.
Qed.




Lemma isCorrect_three (eqs : list Equation) (a b c : string) :
  isCorrect eqs [a; b; c] =
  Qle_bool (resolve eqs a) (resolve eqs b) && Qle_bool (resolve eqs b) (resolve eqs c).
Proof. reflexivity. Qed.

Lemma validateSelection_feedback (c : State) (selected : list string) (s : State) :
  feedbackStatus (validateSelection c selected s) =
  if isCorrect (equations c) selected then correct else wrong.
Proof.
  unfold validateSelection. now destruct (isCorrect (equations c) selected).
Qed.


(** The spec's example: with values A = 2, B = 5, C = 9, tapping B, A, C
    claims the order 5, 2, 9 and fails, whatever the display order. *)
Example tapping_B_A_C_fails :
  isCorrect sampleBatch ["B"; "A"; "C"]%string = false /\
  isCorrect sampleBatchReordered ["B"; "A"; "C"]%string = false /\
  isCorrect sampleBatch ["A"; "B"; "C"]%string = true /\
  isCorrect sampleBatchReordered ["A"; "B"; "C"]%string = true.
Proof. repeat split; reflexivity. Qed.

(** C7. An id that matches no equation of the batch resolves to 0, and
    validation of any three ids goes through: the three values exist and
    the answer is their comparison. *)
Theorem unmatched_id_resolves_to_zero :
  (forall (eqs : list Equation) (i : string),
     (forall e, In e eqs -> id e <> i) -> resolve eqs i = 0%Q)
  /\ (forall (eqs : list Equation) (selected : list string),
        List.length selected = 3%nat ->
        exists v0 v1 v2 : Q,
          selectedValues eqs selected = [v0; v1; v2] /\
          isCorrect eqs selected = Qle_bool v0 v1 && Qle_bool v1 v2 /\
          forall c s : State, equations c = eqs ->
            feedbackStatus (validateSelection c selected s) =
            if Qle_bool v0 v1 && Qle_bool v1 v2 then correct else wrong).
Proof.
  split.
  - intros eqs i Hno. unfold resolve. now rewrite find_id_none.
  - intros eqs selected Hlen.
    destruct selected as [|a [|b [|c3 [|d rest]]]]; try discriminate.
    exists (resolve eqs a), (resolve eqs b), (resolve eqs c3).
    split; [reflexivity|]. split; [reflexivity|].
    intros c0 s Heq. subst eqs. now rewrite validateSelection_feedback, isCorrect_three.
Qed.

(** ** What a render commit and a countdown tick leave alone *)

(** Re-running the timer effect touches nothing but the interval. *)
Ltac commit_cases :=
  unfold step, commit;
  match goal with
  | |- context [depsChanged ?a ?b] => destruct (depsChanged a b)
  end; simpl.

Lemma step_score (ev : Event) (s : State) : score (step ev s) = score (handle ev s).
Proof. now commit_cases. Qed.

Lemma step_level (ev : Event) (s : State) : level (step ev s) = level (handle ev s).
Proof. now commit_cases. Qed.

Lemma step_timeLeft (ev : Event) (s : State) : timeLeft (step ev s) = timeLeft (handle ev s).
Proof. now commit_cases. Qed.

Lemma step_equations (ev : Event) (s : State) :
  equations (step ev s) = equations (handle ev s).
Proof. now commit_cases. Qed.

Lemma step_selectedIds (ev : Event) (s : State) :
  selectedIds (step ev s) = selectedIds (handle ev s).
Proof. now commit_cases. Qed.

Lemma step_gameOver (ev : Event) (s : State) : gameOver (step ev s) = gameOver (handle ev s).
Proof. now commit_cases. Qed.

Lemma step_wrongAttempts (ev : Event) (s : State) :
  wrongAttempts (step ev s) = wrongAttempts (handle ev s).
Proof. now commit_cases. Qed.

Lemma step_feedbackStatus (ev : Event) (s : State) :
  feedbackStatus (step ev s) = feedbackStatus (handle ev s).
Proof. now commit_cases. Qed.

Lemma step_isTourActive (ev : Event) (s : State) :
  isTourActive (step ev s) = isTourActive (handle ev s).
Proof. now commit_cases. Qed.

Lemma step_isPlaying (ev : Event) (s : State) :
  isPlaying (step ev s) = isPlaying (handle ev s).
Proof. now commit_cases. Qed.

Lemma step_timeouts (ev : Event) (s : State) : timeouts (step ev s) = timeouts (handle ev s).
Proof. now commit_cases. Qed.

Lemma step_genCalls (ev : Event) (s : State) : genCalls (step ev s) = genCalls (handle ev s).
Proof. now commit_cases. Qed.

Lemma step_hasSeenTour (ev : Event) (s : State) :
  hasSeenTour (step ev s) = hasSeenTour (handle ev s).
Proof. now commit_cases. Qed.

Ltac step_fields :=
  rewrite ?step_score, ?step_level, ?step_timeLeft, ?step_equations,
    ?step_selectedIds, ?step_gameOver, ?step_wrongAttempts,
    ?step_feedbackStatus, ?step_isTourActive, ?step_isPlaying,
    ?step_timeouts, ?step_genCalls.

Lemma tick_score (s : State) : score (tick s) = score s.
Proof. unfold tick. now destruct (fleb (timeLeft s) n01). Qed.

Lemma tick_level (s : State) : level (tick s) = level s.
Proof. unfold tick. now destruct (fleb (timeLeft s) n01). Qed.

(** A run of countdown ticks, whether they fire or not, leaves the score
    as it is. *)
Lemma run_ticks_score (n : nat) (s : State) :
  score (run (repeat EvTick n) s) = score s.
Proof.
  revert s. induction n as [|n IH]; intros s; simpl; [reflexivity|].
  rewrite IH. destruct (timerOn s); [|reflexivity].
  now rewrite step_score; simpl; rewrite tick_score.
Qed.

(** The third tap on a fresh bubble is the one place validation is called
    from. *)
Lemma third_tap_validates (i : string) (s : State) :
  gameOver s = false -> feedbackStatus s = neutral -> isTourActive s = false ->
  includes (selectedIds s) i = false -> List.length (selectedIds s) = 2%nat ->
  handleBubbleClick i s =
  validateSelection s (selectedIds s ++ [i])
    (setSelectedIds (fun _ => selectedIds s ++ [i]) s).
Proof.
  intros Hover Hfb Htour Hnew Hlen. unfold handleBubbleClick.
  rewrite Hover, Hfb, Htour, Hnew. simpl.
  rewrite length_app, Hlen. reflexivity.
Qed.

(** C2. A correct validation at level [L] with [timeLeft = t] adds
    exactly [L * 10 + floor t] to the score, where [L] and [t] are those of
    the moment the third tap completed the selection; an incorrect one
    leaves the score alone; and countdown ticks after the validation do
    not change what was added. *)
Theorem score_delta_of_validation :
  forall (i : string) (s : State),
    gameOver s = false -> feedbackStatus s = neutral -> isTourActive s = false ->
    includes (selectedIds s) i = false -> List.length (selectedIds s) = 2%nat ->
    (isCorrect (equations s) (selectedIds s ++ [i]) = true ->
       score (step (EvBubbleClick i) s) = score s + (level s * 10 + floor (timeLeft s)))
    /\ (isCorrect (equations s) (selectedIds s ++ [i]) = false ->
          score (step (EvBubbleClick i) s) = score s)
    /\ (forall n : nat,
          score (run (repeat EvTick n) (step (EvBubbleClick i) s)) =
          score (step (EvBubbleClick i) s)).
Proof.
  intros i s Hover Hfb Htour Hnew Hlen.
  split; [|split].
  - intros Hok. rewrite step_score. simpl.
    rewrite third_tap_validates by assumption.
    unfold validateSelection. rewrite Hok. simpl. lia.
  - intros Hbad. rewrite step_score. simpl.
    rewrite third_tap_validates by assumption.
    unfold validateSelection. rewrite Hbad. reflexivity.
  - intros n. apply run_ticks_score.
Qed.

(** ** Firing a pending timeout *)

Lemma fire_reset_feedback (n : nat) (s : State) (ms : Z) :
  nth_error (timeouts s) n = Some (mkTimeout ms CbResetFeedback) ->
  handle (EvTimeout n) s =
  setFeedbackStatus neutral (setTimeouts (removeNth n (timeouts s)) s).
Proof. intros H. simpl. unfold fireTimeout. now rewrite H. Qed.

Lemma fire_restart (n : nat) (s : State) (ms lvl : Z) :
  nth_error (timeouts s) n = Some (mkTimeout ms (CbRestart lvl)) ->
  handle (EvTimeout n) s =
  startLevel lvl (setTimeouts (removeNth n (timeouts s)) s).
Proof. intros H. simpl. unfold fireTimeout. now rewrite H. Qed.

Lemma fire_advance (n : nat) (s : State) (ms lvl : Z) :
  nth_error (timeouts s) n = Some (mkTimeout ms (CbAdvance lvl)) ->
  handle (EvTimeout n) s =
  startLevel (lvl + 1)
    (setLevel (fun prev => prev + 1) (setTimeouts (removeNth n (timeouts s)) s)).
Proof. intros H. simpl. unfold fireTimeout. now rewrite H. Qed.

(** C4. An incorrect validation keeps the selection (now three ids), the
    equations, the level and the score; it adds one to [wrongAttempts],
    shows [wrong], and schedules one timeout of 500 ms.  When that
    timeout fires, in whatever state, it sets the feedback back to
    [neutral] and changes nothing else of the round. *)
Theorem wrong_validation_keeps_round :
  forall (i : string) (s : State),
    gameOver s = false -> feedbackStatus s = neutral -> isTourActive s = false ->
    includes (selectedIds s) i = false -> List.length (selectedIds s) = 2%nat ->
    isCorrect (equations s) (selectedIds s ++ [i]) = false ->
    let s1 := step (EvBubbleClick i) s in
    (selectedIds s1 = selectedIds s ++ [i] /\
     equations s1 = equations s /\ genCalls s1 = genCalls s /\
     level s1 = level s /\ score s1 = score s /\ timeLeft s1 = timeLeft s /\
     wrongAttempts s1 = wrongAttempts s + 1 /\
     feedbackStatus s1 = wrong /\
     timeouts s1 = timeouts s ++ [mkTimeout 500 CbResetFeedback])
    /\ (forall (n : nat) (s2 : State),
          nth_error (timeouts s2) n = Some (mkTimeout 500 CbResetFeedback) ->
          let s3 := step (EvTimeout n) s2 in
          feedbackStatus s3 = neutral /\
          selectedIds s3 = selectedIds s2 /\
          equations s3 = equations s2 /\ genCalls s3 = genCalls s2 /\
          level s3 = level s2 /\ score s3 = score s2 /\
          timeLeft s3 = timeLeft s2 /\ wrongAttempts s3 = wrongAttempts s2 /\
          gameOver s3 = gameOver s2).
Proof.
  intros i s Hover Hfb Htour Hnew Hlen Hbad s1. split.
  - subst s1. step_fields. simpl.
    rewrite third_tap_validates by assumption.
    unfold validateSelection. rewrite Hbad. simpl. repeat split; reflexivity.
  - intros n s2 Hpending s3. subst s3. step_fields.
    rewrite (fire_reset_feedback n s2 500 Hpending). simpl.
    repeat split; reflexivity.
Qed.

(** C5. When the countdown expires, [wrongAttempts] goes up by one, the
    level, the score and [gameOver] stay as they are, the interval is
    cleared and a restart for the level of that moment is scheduled with a
    delay of 1000 ms.  When that restart fires, in whatever state, it
    installs a freshly generated batch for that level, clears the
    selection, resets the timer to 15 and the feedback to [neutral], and
    leaves the level, the score, [gameOver] and [wrongAttempts] alone. *)
Theorem timeout_restarts_same_level :
  forall s : State,
    fleb (timeLeft s) n01 = true ->
    let s1 := step EvTick s in
    (wrongAttempts s1 = wrongAttempts s + 1 /\
     level s1 = level s /\ score s1 = score s /\ gameOver s1 = gameOver s /\
     feedbackStatus s1 = wrong /\ timeLeft s1 = n0 /\ timerOn s1 = false /\
     timeouts s1 = timeouts s ++ [mkTimeout 1000 (CbRestart (level s))])
    /\ (forall (n : nat) (s2 : State),
          nth_error (timeouts s2) n = Some (mkTimeout 1000 (CbRestart (level s))) ->
          let s3 := step (EvTimeout n) s2 in
          level s3 = level s2 /\
          equations s3 = generateEquations (genCalls s2) (level s) /\
          selectedIds s3 = [] /\ timeLeft s3 = n15 /\
          feedbackStatus s3 = neutral /\
          score s3 = score s2 /\ gameOver s3 = gameOver s2 /\
          wrongAttempts s3 = wrongAttempts s2).
Proof.
  intros s Hexp s1. split.
  - subst s1. unfold step, handle, tick. rewrite Hexp. simpl.
    unfold commit, depsChanged. simpl.
    rewrite !Bool.eqb_reflx, Z.eqb_refl, Nat.eqb_refl. simpl.
    repeat split; reflexivity.
  - intros n s2 Hpending s3. subst s3. step_fields.
    rewrite (fire_restart n s2 1000 (level s) Hpending). simpl.
    repeat split; reflexivity.
Qed.

(** ** Tapping a bubble *)

Lemma includes_true_iff (l : list string) (i : string) :
  includes l i = true <-> In i l.
Proof.
  unfold includes. rewrite existsb_exists. split.
  - intros [x [Hin Heq]]. apply String.eqb_eq in Heq. now subst x.
  - intros Hin. exists i. split; [exact Hin | apply String.eqb_refl].
Qed.

Lemma includes_false_iff (l : list string) (i : string) :
  includes l i = false <-> ~ In i l.
Proof.
  rewrite <- includes_true_iff. destruct (includes l i); split; congruence.
Qed.

Lemma in_deselect (l : list string) (i j : string) :
  In j (filter (fun selectedId => negb (String.eqb selectedId i)) l) <->
  In j l /\ j <> i.
Proof.
  rewrite filter_In, negb_true_iff, String.eqb_neq. reflexivity.
Qed.

Lemma tap_accepted (i : string) (s : State) :
  gameOver s = false -> feedbackStatus s = neutral -> isTourActive s = false ->
  handleBubbleClick i s =
  if includes (selectedIds s) i then
    setSelectedIds
      (fun prev => filter (fun selectedId => negb (String.eqb selectedId i)) prev) s
  else if (List.length (selectedIds s ++ [i]) =? 3)%nat then
    validateSelection s (selectedIds s ++ [i])
      (setSelectedIds (fun _ => selectedIds s ++ [i]) s)
  else setSelectedIds (fun _ => selectedIds s ++ [i]) s.
Proof.
  intros Hover Hfb Htour. unfold handleBubbleClick.
  now rewrite Hover, Hfb, Htour.
Qed.

Lemma validateSelection_not_neutral (c : State) (selected : list string) (s : State) :
  feedbackStatus (validateSelection c selected s) <> neutral.
Proof.
  rewrite validateSelection_feedback.
  destruct (isCorrect (equations c) selected); discriminate.
Qed.

Lemma validateSelection_schedules (c : State) (selected : list string) (s : State) :
  List.length (timeouts (validateSelection c selected s)) = S (List.length (timeouts s)).
Proof.
  unfold validateSelection.
  destruct (isCorrect (equations c) selected); simpl;
    rewrite length_app; simpl; lia.
Qed.

(** C6, as the code has it.  In a state with neutral feedback, the game
    not over and the onboarding tour not active: tapping a selected id
    removes that id and only that id, whatever the number of selected
    ids, and validation is not called (feedback, pending timeouts, score
    and miss count stay as they were); tapping a new id appends it, and
    validation is called exactly when the selection then has three
    ids.  While the tour is active a tap changes nothing at all. *)
Theorem tap_toggles_and_third_tap_validates :
  (forall (i : string) (s : State),
    gameOver s = false -> feedbackStatus s = neutral -> isTourActive s = false ->
    let s1 := step (EvBubbleClick i) s in
    (In i (selectedIds s) ->
       selectedIds s1 =
         filter (fun selectedId => negb (String.eqb selectedId i)) (selectedIds s) /\
       ~ In i (selectedIds s1) /\
       (forall j, j <> i -> (In j (selectedIds s1) <-> In j (selectedIds s))) /\
       feedbackStatus s1 = neutral /\ timeouts s1 = timeouts s /\
       score s1 = score s /\ wrongAttempts s1 = wrongAttempts s)
    /\ (~ In i (selectedIds s) ->
          selectedIds s1 = selectedIds s ++ [i] /\
          (List.length (selectedIds s ++ [i]) = 3%nat ->
             handle (EvBubbleClick i) s =
               validateSelection s (selectedIds s ++ [i])
                 (setSelectedIds (fun _ => selectedIds s ++ [i]) s) /\
             feedbackStatus s1 <> neutral /\
             List.length (timeouts s1) = S (List.length (timeouts s))) /\
          (List.length (selectedIds s ++ [i]) <> 3%nat ->
             feedbackStatus s1 = neutral /\ timeouts s1 = timeouts s /\
             score s1 = score s /\ wrongAttempts s1 = wrongAttempts s)))
  /\ (forall (i : string) (s : State),
        isTourActive s = true -> step (EvBubbleClick i) s = s).
Proof.
  split.
  2: { intros i s Htour. unfold step, commit. simpl handle.
       unfold handleBubbleClick. rewrite Htour, orb_true_r.
       unfold depsChanged.
       now rewrite !Bool.eqb_reflx, Z.eqb_refl, Nat.eqb_refl. }
  intros i s Hover Hfb Htour s1. subst s1. step_fields. simpl.
  rewrite (tap_accepted i s Hover Hfb Htour). split.
  - intros Hin. apply includes_true_iff in Hin. rewrite Hin. simpl.
    repeat split; try assumption; try reflexivity.
    + rewrite in_deselect. intros [_ Hne]. now apply Hne.
    + rewrite in_deselect. tauto.
    + rewrite in_deselect. tauto.
  - intros Hnotin. apply includes_false_iff in Hnotin. rewrite Hnotin.
    split; [|split].
    + destruct (List.length (selectedIds s ++ [i]) =? 3)%nat; [|reflexivity].
      unfold validateSelection.
      now destruct (isCorrect (equations s) (selectedIds s ++ [i])).
    + intros Hlen. rewrite Hlen. simpl. split; [reflexivity|]. split.
      * apply validateSelection_not_neutral.
      * now rewrite validateSelection_schedules.
    + intros Hlen. apply Nat.eqb_neq in Hlen. rewrite Hlen. simpl.
      repeat split; try assumption; reflexivity.
Qed.

(** ** The countdown *)

Lemma tick_running (s : State) :
  fleb (timeLeft s) n01 = false ->
  handle EvTick s = setTimeLeft (fun prev => fsub prev n01) s.
Proof. intros H. simpl. unfold tick. now rewrite H. Qed.

Lemma tick_expired (s : State) :
  fleb (timeLeft s) n01 = true ->
  handle EvTick s = setTimeLeft (fun _ => n0) (handleTimeUp s (clearInterval s)).
Proof. intros H. simpl. unfold tick. now rewrite H. Qed.

Lemma startLevel_timeLeft (lvl : Z) (s : State) : timeLeft (startLevel lvl s) = n15.
Proof. reflexivity. Qed.

Lemma validateSelection_timeLeft (c : State) (selected : list string) (s : State) :
  timeLeft (validateSelection c selected s) = timeLeft s.
Proof. unfold validateSelection. now destruct (isCorrect (equations c) selected). Qed.

Lemma validateSelection_selectedIds (c : State) (selected : list string) (s : State) :
  selectedIds (validateSelection c selected s) = selectedIds s.
Proof. unfold validateSelection. now destruct (isCorrect (equations c) selected). Qed.

Lemma handleBubbleClick_timeLeft (i : string) (s : State) :
  timeLeft (handleBubbleClick i s) = timeLeft s.
Proof.
  unfold handleBubbleClick.
  destruct (gameOver s || negb (Feedback_eqb (feedbackStatus s) neutral) || isTourActive s);
    [reflexivity|].
  destruct (includes (selectedIds s) i); [reflexivity|].
  destruct (List.length (selectedIds s ++ [i]) =? 3)%nat; [|reflexivity].
  now rewrite validateSelection_timeLeft.
Qed.

Lemma number_eqb_eq (x y : number) : number_eqb x y = true -> x = y.
Proof.
  destruct x as [a|a| |a m e], y as [b|b| |b m' e']; simpl; try discriminate;
    try reflexivity.
  - intros H. apply Bool.eqb_prop in H. now subst.
  - intros H. apply Bool.eqb_prop in H. now subst.
  - rewrite !andb_true_iff. intros [[Ha Hm] He].
    apply Bool.eqb_prop in Ha. apply Pos.eqb_eq in Hm. apply Z.eqb_eq in He.
    now subst.
Qed.

Lemma countdown_member (t : number) :
  existsb (number_eqb t) countdownValues = true -> In t countdownValues.
Proof.
  intros H. apply existsb_exists in H. destruct H as [u [Hin Heq]].
  apply number_eqb_eq in Heq. now subst.
Qed.

(** The countdown values are closed under the interval callback, they
    lie between 0 and 15, and the callback takes its expiry branch on them
    exactly when the subtraction would give 0 or less.  All three are
    checked on the 152 values. *)
Lemma countdown_checked :
  forallb (fun t => existsb (number_eqb (tickValue t)) countdownValues
                    && fleb n0 t && fleb t n15 && (0 <=? floor t)
                    && Bool.eqb (fleb t n01) (fleb (fsub t n01) n0))
          countdownValues = true.
Proof. vm_compute. reflexivity. Qed.

Lemma countdown_facts (t : number) :
  In t countdownValues ->
  In (tickValue t) countdownValues /\ fleb n0 t = true /\ fleb t n15 = true /\
  0 <= floor t /\ fleb t n01 = fleb (fsub t n01) n0.
Proof.
  intros Hin.
  pose proof (proj1 (forallb_forall _ _) countdown_checked t Hin) as H.
  rewrite !andb_true_iff in H. destruct H as [[[[H1 H2] H3] H4] H5].
  apply countdown_member in H1. apply Z.leb_le in H4. apply Bool.eqb_prop in H5.
  repeat split; assumption.
Qed.

Lemma countdown_starts_at_15 : In n15 countdownValues.
Proof. now left. Qed.

Lemma tick_timeLeft (s : State) : timeLeft (tick s) = tickValue (timeLeft s).
Proof. unfold tick, tickValue. now destruct (fleb (timeLeft s) n01). Qed.

Lemma handle_countdown (ev : Event) (s : State) :
  In (timeLeft s) countdownValues -> In (timeLeft (handle ev s)) countdownValues.
Proof.
  intros Hin. destruct ev; simpl; try exact Hin.
  - unfold startGame. destruct (negb (hasSeenTour s)); exact countdown_starts_at_15.
  - now rewrite handleBubbleClick_timeLeft.
  - rewrite tick_timeLeft. now apply countdown_facts.
  - unfold fireTimeout. destruct (nth_error (timeouts s) n) as [t|]; [|exact Hin].
    destruct (callback t); try exact countdown_starts_at_15. exact Hin.
Qed.

Lemma reachable_countdown (s : State) : reachable s -> In (timeLeft s) countdownValues.
Proof.
  induction 1 as [seen|s ev Hreach IH Hen]; [exact countdown_starts_at_15|].
  rewrite step_timeLeft. now apply handle_countdown.
Qed.

(** No handler installs the interval; only the effect does. *)
Lemma handle_timerOn (ev : Event) (s : State) :
  timerOn (handle ev s) = true -> timerOn s = true.
Proof.
  destruct ev; simpl; try (intros H; exact H).
  - unfold startGame. now destruct (negb (hasSeenTour s)).
  - unfold handleBubbleClick.
    destruct (gameOver s || negb (Feedback_eqb (feedbackStatus s) neutral) || isTourActive s);
      [tauto|].
    destruct (includes (selectedIds s) i); [tauto|].
    destruct (List.length (selectedIds s ++ [i]) =? 3)%nat; [|tauto].
    unfold validateSelection.
    now destruct (isCorrect (equations s) (selectedIds s ++ [i])).
  - unfold tick. now destruct (fleb (timeLeft s) n01).
  - unfold fireTimeout. destruct (nth_error (timeouts s) n) as [t|]; [|tauto].
    now destruct (callback t).
Qed.

Lemma depsChanged_false_guard (s s' : State) :
  depsChanged s s' = false -> timerGuard s' = timerGuard s.
Proof.
  unfold depsChanged, timerGuard. rewrite negb_false_iff, !andb_true_iff.
  intros [[[[Hp Ho] _] _] Ht].
  apply Bool.eqb_prop in Hp, Ho, Ht. now rewrite Hp, Ho, Ht.
Qed.

(** The interval is installed only while playing, not over and with the
    tour closed. *)
Lemma reachable_timerOn_guard (s : State) :
  reachable s -> timerOn s = true -> timerGuard s = true.
Proof.
  induction 1 as [seen|s ev Hreach IH Hen]; [discriminate|].
  unfold step, commit. destruct (depsChanged s (handle ev s)) eqn:Hdeps.
  - simpl. unfold timerGuard. simpl. tauto.
  - intros Hon. rewrite (depsChanged_false_guard _ _ Hdeps).
    apply IH. now apply (handle_timerOn ev).
Qed.

(** C8. A tick takes the fixed step 0.1 off [timeLeft], in binary64,
    and does nothing else to the round, unless 0.1 or less is left: then
    it runs the timer-expired transition instead and sets [timeLeft] to
    0.  In a reachable state that is exactly when the subtraction would
    give 0 or less.  The interval only runs while playing and not over,
    and in every reachable state [timeLeft] is one of the values of the
    countdown from 15, none of which is negative. *)
Theorem countdown_never_negative :
  (forall s : State,
     fleb (timeLeft s) n01 = false ->
     timeLeft (step EvTick s) = fsub (timeLeft s) n01 /\
     wrongAttempts (step EvTick s) = wrongAttempts s /\
     feedbackStatus (step EvTick s) = feedbackStatus s /\
     timeouts (step EvTick s) = timeouts s)
  /\ (forall s : State,
        fleb (timeLeft s) n01 = true ->
        timeLeft (step EvTick s) = n0 /\
        handle EvTick s = setTimeLeft (fun _ => n0) (handleTimeUp s (clearInterval s)) /\
        wrongAttempts (step EvTick s) = wrongAttempts s + 1 /\
        feedbackStatus (step EvTick s) = wrong)
  /\ (forall s : State,
        reachable s ->
        fleb (timeLeft s) n01 = fleb (fsub (timeLeft s) n01) n0)
  /\ (forall s : State,
        reachable s -> enabled EvTick s = true ->
        isPlaying s = true /\ gameOver s = false)
  /\ (forall s : State,
        reachable s ->
        In (timeLeft s) countdownValues /\ fleb n0 (timeLeft s) = true).
Proof.
  split; [|split; [|split; [|split]]].
  - intros s Hgt. step_fields.
    rewrite (tick_running s Hgt). simpl. repeat split; reflexivity.
  - intros s Hexp.
    step_fields. rewrite (tick_expired s Hexp). simpl. repeat split; reflexivity.
  - intros s Hreach. now apply countdown_facts, reachable_countdown.
  - intros s Hreach Hon. simpl in Hon.
    pose proof (reachable_timerOn_guard s Hreach Hon) as Hg.
    unfold timerGuard in Hg. rewrite !andb_true_iff, negb_true_iff in Hg. tauto.
  - intros s Hreach. pose proof (reachable_countdown s Hreach) as Hin.
    split; [exact Hin | now apply countdown_facts].
Qed.

(** ** The selection *)

Lemma NoDup_snoc (l : list string) (i : string) :
  NoDup l -> ~ In i l -> NoDup (l ++ [i]).
Proof.
  induction l as [|x l IH]; intros Hnd Hnotin; simpl.
  - constructor; [intros []|constructor].
  - inversion Hnd as [|? ? Hx Hnd']; subst. constructor.
    + rewrite in_app_iff. intros [Hin|[Heq|[]]]; [now apply Hx|].
      apply Hnotin. now left.
    + apply IH; [exact Hnd'|]. intros Hin. apply Hnotin. now right.
Qed.

Lemma startLevel_selectedIds (lvl : Z) (s : State) : selectedIds (startLevel lvl s) = [].
Proof. reflexivity. Qed.

Lemma handleBubbleClick_NoDup (i : string) (s : State) :
  NoDup (selectedIds s) -> NoDup (selectedIds (handleBubbleClick i s)).
Proof.
  intros Hnd. unfold handleBubbleClick.
  destruct (gameOver s || negb (Feedback_eqb (feedbackStatus s) neutral) || isTourActive s);
    [exact Hnd|].
  destruct (includes (selectedIds s) i) eqn:Hinc.
  - simpl. now apply NoDup_filter.
  - apply includes_false_iff in Hinc.
    destruct (List.length (selectedIds s ++ [i]) =? 3)%nat;
      rewrite ?validateSelection_selectedIds; simpl; now apply NoDup_snoc.
Qed.

Lemma handle_NoDup (ev : Event) (s : State) :
  NoDup (selectedIds s) -> NoDup (selectedIds (handle ev s)).
Proof.
  intros Hnd. destruct ev; simpl; try exact Hnd.
  - unfold startGame. destruct (negb (hasSeenTour s)); simpl; constructor.
  - now apply handleBubbleClick_NoDup.
  - unfold tick. now destruct (fleb (timeLeft s) n01).
  - unfold fireTimeout. destruct (nth_error (timeouts s) n) as [t|]; [|exact Hnd].
    destruct (callback t); simpl; try constructor. exact Hnd.
Qed.

(** C10. In every reachable state the selected ids are pairwise
    distinct: a tap keeps them distinct (it appends only an id that is
    not there, and deselection only removes), and starting a round empties
    the selection. *)
Theorem selection_has_no_duplicates :
  (forall s : State, reachable s -> NoDup (selectedIds s))
  /\ (forall (i : string) (s : State),
        NoDup (selectedIds s) -> NoDup (selectedIds (step (EvBubbleClick i) s)))
  /\ (forall (i : string) (s : State),
        In i (selectedIds s) -> ~ In i (selectedIds (step (EvBubbleClick i) s)) \/
                                selectedIds (step (EvBubbleClick i) s) = selectedIds s)
  /\ (forall (lvl : Z) (s : State), selectedIds (startLevel lvl s) = []).
Proof.
  split; [|split; [|split]].
  - induction 1 as [seen|s ev Hreach IH Hen]; [constructor|].
    rewrite step_selectedIds. now apply handle_NoDup.
  - intros i s Hnd. rewrite step_selectedIds. simpl.
    now apply handleBubbleClick_NoDup.
  - intros i s Hin. rewrite step_selectedIds. simpl. unfold handleBubbleClick.
    destruct (gameOver s || negb (Feedback_eqb (feedbackStatus s) neutral) || isTourActive s);
      [now right|].
    apply includes_true_iff in Hin. rewrite Hin. left. simpl.
    rewrite in_deselect. tauto.
  - exact startLevel_selectedIds.
Qed.

(** ** Stopping the game *)

Lemma handle_keeps_gameOver (ev : Event) (s : State) :
  ev <> EvStartGame -> gameOver s = true -> gameOver (handle ev s) = true.
Proof.
  intros Hev Hover. destruct ev; simpl; try exact Hover.
  - congruence.
  - reflexivity.
  - unfold handleBubbleClick. now rewrite Hover.
  - unfold tick. now destruct (fleb (timeLeft s) n01).
  - unfold fireTimeout. destruct (nth_error (timeouts s) n) as [t|]; [|exact Hover].
    now destruct (callback t).
Qed.

Lemma stop_sets_gameOver (s : State) :
  let s' := step EvStopGame s in
  gameOver s' = true /\ timeouts s' = timeouts s /\ level s' = level s /\
  genCalls s' = genCalls s /\ score s' = score s /\
  (gameOver s = false -> timerOn s' = false).
Proof.
  simpl. step_fields. simpl. repeat split.
  intros Hover. unfold step, commit, depsChanged, timerGuard. simpl.
  rewrite Hover. now destruct (isPlaying s).
Qed.

(** A level advance that fires does its work whether or not the game
    was stopped in the meantime. *)
Lemma advance_fires (n : nat) (s : State) (ms lvl : Z) :
  nth_error (timeouts s) n = Some (mkTimeout ms (CbAdvance lvl)) ->
  let s' := step (EvTimeout n) s in
  gameOver s' = gameOver s /\ level s' = level s + 1 /\
  equations s' = generateEquations (genCalls s) (lvl + 1) /\
  selectedIds s' = [] /\ timeLeft s' = n15 /\ feedbackStatus s' = neutral /\
  score s' = score s /\ timerOn s' = timerGuard s.
Proof.
  intros Hpending. simpl. step_fields.
  unfold step, commit. rewrite (fire_advance n s ms lvl Hpending).
  destruct (depsChanged s _) eqn:Hdeps.
  - simpl. repeat split; reflexivity.
  - exfalso. unfold depsChanged in Hdeps. simpl in Hdeps.
    rewrite negb_false_iff, !andb_true_iff in Hdeps.
    destruct Hdeps as [[[_ Hlv] _] _]. apply Z.eqb_eq in Hlv. lia.
Qed.

Lemma nth_error_snoc {A : Type} (l : list A) (x : A) :
  nth_error (l ++ [x]) (List.length l) = Some x.
Proof. induction l as [|y l IH]; simpl; [reflexivity | exact IH]. Qed.

(** C3, as the code has it.  [stopGame] sets [gameOver] and cancels
    nothing: the pending timeouts stay pending.  While [gameOver] is set
    it stays set under every event but [startGame], taps are ignored and
    the countdown interval is not installed.  But a level advance
    scheduled by a correct validation still takes effect when it fires
    after the stop: the level goes up by one and a new round is installed
    (fresh batch, empty selection, timer at 15, neutral feedback), with
    [gameOver] still set and the countdown still stopped. *)
Theorem stop_keeps_pending_advance :
  forall (i : string) (s : State),
    gameOver s = false -> feedbackStatus s = neutral -> isTourActive s = false ->
    includes (selectedIds s) i = false -> List.length (selectedIds s) = 2%nat ->
    isCorrect (equations s) (selectedIds s ++ [i]) = true ->
    let s1 := step (EvBubbleClick i) s in
    let s2 := step EvStopGame s1 in
    let s3 := step (EvTimeout (List.length (timeouts s))) s2 in
    (timeouts s1 = timeouts s ++ [mkTimeout 1000 (CbAdvance (level s))] /\
     level s1 = level s /\ feedbackStatus s1 = correct)
    /\ (gameOver s2 = true /\ timeouts s2 = timeouts s1 /\ level s2 = level s /\
        timerOn s2 = false)
    /\ (gameOver s3 = true /\ timerOn s3 = false /\
        level s3 = level s + 1 /\
        equations s3 = generateEquations (genCalls s) (level s + 1) /\
        selectedIds s3 = [] /\ timeLeft s3 = n15 /\ feedbackStatus s3 = neutral /\
        score s3 = score s1)
    /\ (forall s' : State,
          gameOver (step EvStopGame s') = true /\
          timeouts (step EvStopGame s') = timeouts s')
    /\ (forall (ev : Event) (s' : State),
          gameOver s' = true -> ev <> EvStartGame ->
          gameOver (step ev s') = true)
    /\ (forall (j : string) (s' : State),
          gameOver s' = true -> handle (EvBubbleClick j) s' = s')
    /\ (forall s' : State,
          reachable s' -> gameOver s' = true -> enabled EvTick s' = false).
Proof.
  intros i s Hover Hfb Htour Hnew Hlen Hok s1 s2 s3.
  assert (H1 : handle (EvBubbleClick i) s =
               setTimeout (CbAdvance (level s)) 1000
                 (setScore (fun prev => prev + (level s * 10) + floor (timeLeft s))
                    (setFeedbackStatus correct
                       (setSelectedIds (fun _ => selectedIds s ++ [i]) s)))).
  { simpl. rewrite third_tap_validates by assumption.
    unfold validateSelection. now rewrite Hok. }
  assert (Hs1 : timeouts s1 = timeouts s ++ [mkTimeout 1000 (CbAdvance (level s))] /\
                level s1 = level s /\ feedbackStatus s1 = correct /\
                genCalls s1 = genCalls s).
  { subst s1. step_fields. rewrite H1. simpl. repeat split; reflexivity. }
  destruct Hs1 as [Ht1 [Hl1 [Hf1 Hg1]]].
  assert (Hover1 : gameOver s1 = false).
  { subst s1. step_fields. rewrite H1. simpl. exact Hover. }
  assert (Hs2 : gameOver s2 = true /\ timeouts s2 = timeouts s1 /\ level s2 = level s /\
                timerOn s2 = false /\ genCalls s2 = genCalls s /\ score s2 = score s1).
  { subst s2. pose proof (stop_sets_gameOver s1) as Hstop. simpl in Hstop.
    destruct Hstop as [Ha [Hb [Hc [Hd [He Hf]]]]].
    rewrite Ha, Hb, Hc, Hd, He, Hl1, Hg1. repeat split. now apply Hf. }
  destruct Hs2 as [Ho2 [Ht2 [Hl2 [Hon2 [Hg2 Hsc2]]]]].
  assert (Hpending : nth_error (timeouts s2) (List.length (timeouts s)) =
                     Some (mkTimeout 1000 (CbAdvance (level s)))).
  { rewrite Ht2, Ht1. apply nth_error_snoc. }
  split; [now repeat split|]. split; [now repeat split|].
  clearbody s2. split.
  - subst s3. pose proof (advance_fires (List.length (timeouts s)) s2 1000 (level s) Hpending) as Hfire.
    simpl in Hfire. destruct Hfire as [Ha [Hb [Hc [Hd [He [Hf [Hg Hh]]]]]]].
    rewrite Ha, Hb, Hc, Hd, He, Hf, Hg, Hh, Ho2, Hl2, Hg2, Hsc2.
    unfold timerGuard. rewrite Ho2, andb_false_r. repeat split.
  - split; [|split; [|split]].
    + intros s'. now step_fields.
    + intros ev s' Hov Hev. rewrite step_gameOver. now apply handle_keeps_gameOver.
    + intros j s' Hov. simpl. unfold handleBubbleClick. now rewrite Hov.
    + intros s' Hreach Hov. simpl. destruct (timerOn s') eqn:Hon; [|reflexivity].
      pose proof (reachable_timerOn_guard s' Hreach Hon) as Hg.
      unfold timerGuard in Hg. rewrite Hov in Hg. simpl in Hg.
      rewrite andb_false_r in Hg. discriminate.
Qed.

(** ** The copy without the tour

    For a visitor who has seen the tour and never presses "Reset Tour",
    the tour stays closed: the machine then runs as the copy of the
    component that has no tour. *)
Lemma tour_stays_closed (ev : Event) (s : State) :
  ev <> EvResetTour -> isTourActive s = false -> hasSeenTour s = true ->
  isTourActive (step ev s) = false /\ hasSeenTour (step ev s) = true.
Proof.
  intros Hev Htour Hseen. rewrite step_isTourActive, step_hasSeenTour.
  destruct ev; simpl; try (split; assumption); try (split; reflexivity).
  - unfold startGame. rewrite Hseen. simpl. now split.
  - unfold handleBubbleClick.
    destruct (gameOver s || negb (Feedback_eqb (feedbackStatus s) neutral) || isTourActive s);
      [now split|].
    destruct (includes (selectedIds s) i); [now split|].
    destruct (List.length (selectedIds s ++ [i]) =? 3)%nat; [|now split].
    unfold validateSelection.
    now destruct (isCorrect (equations s) (selectedIds s ++ [i])).
  - unfold tick. now destruct (fleb (timeLeft s) n01).
  - unfold fireTimeout. destruct (nth_error (timeouts s) n) as [t|]; [|now split].
    now destruct (callback t).
  - congruence.
Qed.

(** ** Runs *)

Lemma reachable_run (evs : list Event) (s : State) :
  reachable s -> reachable (run evs s).
Proof.
  revert s. induction evs as [|ev evs IH]; intros s Hreach; simpl; [exact Hreach|].
  apply IH. destruct (enabled ev s) eqn:Hen; [|exact Hreach].
  now apply reachable_step.
Qed.

(** ** Counters *)

Ltac tap_cases s i :=
  unfold handleBubbleClick;
  destruct (gameOver s || negb (Feedback_eqb (feedbackStatus s) neutral) || isTourActive s)
    eqn:Hgate;
  [|destruct (includes (selectedIds s) i) eqn:Hinc;
    [|destruct (List.length (selectedIds s ++ [i]) =? 3)%nat eqn:Hthree;
      [unfold validateSelection;
       destruct (isCorrect (equations s) (selectedIds s ++ [i])) eqn:Hok|]]].

Ltac fire_cases s n :=
  unfold fireTimeout;
  destruct (nth_error (timeouts s) n) as [[ms [lvl|lvl|]]|] eqn:Hnth.

Lemma handle_counters (ev : Event) (s : State) :
  1 <= level s -> 0 <= score s -> 0 <= wrongAttempts s -> 0 <= floor (timeLeft s) ->
  1 <= level (handle ev s) /\ 0 <= score (handle ev s) /\
  0 <= wrongAttempts (handle ev s).
Proof.
  intros Hl Hs Hw Hfl.
  destruct ev; simpl.
  - unfold startGame. destruct (negb (hasSeenTour s)); simpl; lia.
  - lia.
  - tap_cases s i; simpl; nia.
  - unfold tick. destruct (fleb (timeLeft s) n01); simpl; lia.
  - fire_cases s n; simpl; lia.
  - lia.
  - lia.
Qed.

Lemma reachable_floor_nonneg (s : State) : reachable s -> 0 <= floor (timeLeft s).
Proof. intros Hreach. now apply countdown_facts, reachable_countdown. Qed.

Lemma reachable_counters (s : State) :
  reachable s ->
  1 <= level s /\ 0 <= score s /\ 0 <= wrongAttempts s.
Proof.
  induction 1 as [seen|s ev Hreach IH Hen]; [simpl; lia|].
  destruct IH as [Hl [Hs Hw]]. step_fields.
  apply handle_counters; try assumption.
  now apply reachable_floor_nonneg.
Qed.

(** X1. In every reachable state the level is at least 1, the score and
    the miss count are not negative, and the time left, a binary64 number,
    is between 0 and the 15 seconds a round starts with. *)
Theorem counters_stay_in_range :
  forall s : State,
    reachable s ->
    1 <= level s /\ 0 <= score s /\ 0 <= wrongAttempts s /\
    fleb n0 (timeLeft s) = true /\ fleb (timeLeft s) n15 = true.
Proof.
  intros s Hreach.
  destruct (reachable_counters s Hreach) as [Hl [Hs Hw]].
  destruct (countdown_facts _ (reachable_countdown s Hreach)) as [_ [H0 [H15 _]]].
  repeat split; assumption.
Qed.

(** X2. Within a game nothing is ever taken back: every event other
    than [startGame] leaves the score, the level and the miss count where
    they were or higher, and raises the level and the miss count by at
    most one. *)
Theorem counters_never_decrease :
  forall (ev : Event) (s : State),
    reachable s -> ev <> EvStartGame ->
    score s <= score (step ev s) /\
    level s <= level (step ev s) <= level s + 1 /\
    wrongAttempts s <= wrongAttempts (step ev s) <= wrongAttempts s + 1.
Proof.
  intros ev s Hreach Hev.
  destruct (reachable_counters s Hreach) as [Hl [Hs Hw]].
  pose proof (reachable_floor_nonneg s Hreach) as Hfl.
  step_fields. destruct ev; simpl; try lia.
  - congruence.
  - tap_cases s i; simpl; nia.
  - unfold tick. destruct (fleb (timeLeft s) n01); simpl; lia.
  - fire_cases s n; simpl; lia.
Qed.

(** X3. Once a game has been started the start screen is never drawn
    again: no event resets [isPlaying], so from then on every render is
    the game screen, with the overlay exactly when the game is over. *)
Theorem start_screen_never_returns :
  forall (ev : Event) (s : State),
    isPlaying s = true ->
    isPlaying (step ev s) = true /\
    exists shake bubbles,
      render (step ev s) = GameScreen shake bubbles (gameOver (step ev s)).
Proof.
  intros ev s Hplay.
  assert (H : isPlaying (step ev s) = true).
  { rewrite step_isPlaying. destruct ev; simpl; try exact Hplay.
    - unfold startGame. now destruct (negb (hasSeenTour s)).
    - tap_cases s i; simpl; exact Hplay.
    - unfold tick. now destruct (fleb (timeLeft s) n01).
    - fire_cases s n; simpl; exact Hplay. }
  split; [exact H|]. unfold render. rewrite H. simpl. eauto.
Qed.

(** ** The feedback gate *)

Lemma gate_open (s : State) :
  gameOver s || negb (Feedback_eqb (feedbackStatus s) neutral) || isTourActive s = false ->
  gameOver s = false /\ feedbackStatus s = neutral /\ isTourActive s = false.
Proof.
  rewrite !orb_false_iff, negb_false_iff. intros [[Ho Hf] Ht].
  repeat split; try assumption. now destruct (feedbackStatus s).
Qed.



Lemma handle_correct_feedback (ev : Event) (s : State) :
  (feedbackStatus s = correct ->
   List.length (selectedIds s) = 3%nat /\ isCorrect (equations s) (selectedIds s) = true) ->
  feedbackStatus (handle ev s) = correct ->
  List.length (selectedIds (handle ev s)) = 3%nat /\
  isCorrect (equations (handle ev s)) (selectedIds (handle ev s)) = true.
Proof.
  intros IH. destruct ev; simpl; try exact IH.
  - unfold startGame. destruct (negb (hasSeenTour s)); simpl; discriminate.
  - tap_cases s i; simpl; try exact IH; try discriminate.
    + apply gate_open in Hgate. destruct Hgate as [_ [Hf _]]. congruence.
    + intros _. apply Nat.eqb_eq in Hthree. now split.
    + apply gate_open in Hgate. destruct Hgate as [_ [Hf _]]. congruence.
  - unfold tick. destruct (fleb (timeLeft s) n01); simpl;
        [discriminate | exact IH].
  - fire_cases s n; simpl; try discriminate. exact IH.
Qed.

Lemma reachable_correct_feedback (s : State) :
  reachable s -> feedbackStatus s = correct ->
  List.length (selectedIds s) = 3%nat /\ isCorrect (equations s) (selectedIds s) = true.
Proof.
  induction 1 as [seen|s ev Hreach IH Hen]; [discriminate|].
  step_fields. now apply handle_correct_feedback.
Qed.

(** X5. A bubble is drawn with the status [correct] only when it is one
    of three selected bubbles whose values, in the order selected, are in
    non-decreasing order in the batch on display. *)
Theorem correct_status_is_earned :
  forall (s : State) (e : Equation),
    reachable s ->
    status (bubbleProps s e) = correct ->
    In (id e) (selectedIds s) /\
    List.length (selectedIds s) = 3%nat /\
    isCorrect (equations s) (selectedIds s) = true.
Proof.
  intros s e Hreach. unfold bubbleProps. simpl.
  destruct (List.length (selectedIds s) =? 3)%nat; simpl; [|discriminate].
  destruct (includes (selectedIds s) (id e)) eqn:Hinc; [|discriminate].
  intros Hfb. split; [now apply includes_true_iff|].
  now apply reachable_correct_feedback.
Qed.

(** ** Which events re-run the timer effect *)

Lemma depsChanged_same (s s' : State) :
  isPlaying s' = isPlaying s -> gameOver s' = gameOver s -> level s' = level s ->
  genCalls s' = genCalls s -> isTourActive s' = isTourActive s ->
  depsChanged s s' = false.
Proof.
  intros Hp Ho Hl Hg Ht. unfold depsChanged.
  rewrite Hp, Ho, Hl, Hg, Ht, !Bool.eqb_reflx, Z.eqb_refl, Nat.eqb_refl.
  reflexivity.
Qed.

Lemma step_tap (i : string) (s : State) :
  step (EvBubbleClick i) s = handleBubbleClick i s.
Proof.
  unfold step, commit. simpl handle.
  rewrite depsChanged_same; [reflexivity| | | | |]; tap_cases s i; reflexivity.
Qed.

Lemma step_tick (s : State) : step EvTick s = tick s.
Proof.
  unfold step, commit. simpl handle.
  rewrite depsChanged_same; [reflexivity| | | | |];
    unfold tick; destruct (fleb (timeLeft s) n01); reflexivity.
Qed.

Lemma handleBubbleClick_timerOn (i : string) (s : State) :
  timerOn (handleBubbleClick i s) = timerOn s.
Proof. tap_cases s i; reflexivity. Qed.

Lemma correct_tap (i : string) (s : State) :
  gameOver s = false -> feedbackStatus s = neutral -> isTourActive s = false ->
  includes (selectedIds s) i = false -> List.length (selectedIds s) = 2%nat ->
  isCorrect (equations s) (selectedIds s ++ [i]) = true ->
  step (EvBubbleClick i) s =
  setTimeout (CbAdvance (level s)) 1000
    (setScore (fun prev => prev + (level s * 10) + floor (timeLeft s))
       (setFeedbackStatus correct
          (setSelectedIds (fun _ => selectedIds s ++ [i]) s))).
Proof.
  intros Hover Hfb Htour Hnew Hlen Hok.
  rewrite step_tap, third_tap_validates by assumption.
  unfold validateSelection. now rewrite Hok.
Qed.

Lemma nth_error_app_head {A : Type} (l r : list A) (x : A) :
  nth_error (l ++ x :: r) (List.length l) = Some x.
Proof. induction l as [|y l IH]; simpl; [reflexivity | exact IH]. Qed.

Lemma removeNth_app_head {A : Type} (l r : list A) (x : A) :
  removeNth (List.length l) (l ++ x :: r) = l ++ r.
Proof. induction l as [|y l IH]; simpl; [reflexivity | now rewrite IH]. Qed.

Lemma restart_fires (n : nat) (s : State) (ms lvl : Z) :
  nth_error (timeouts s) n = Some (mkTimeout ms (CbRestart lvl)) ->
  let s' := step (EvTimeout n) s in
  level s' = level s /\
  equations s' = generateEquations (genCalls s) lvl /\
  genCalls s' = S (genCalls s) /\
  timeouts s' = removeNth n (timeouts s) /\
  timerOn s' = timerGuard s.
Proof.
  intros Hpending. simpl. step_fields.
  unfold step, commit. rewrite (fire_restart n s ms lvl Hpending).
  destruct (depsChanged s _) eqn:Hdeps.
  - simpl. repeat split; reflexivity.
  - exfalso. unfold depsChanged in Hdeps. simpl in Hdeps.
    rewrite negb_false_iff, !andb_true_iff in Hdeps.
    destruct Hdeps as [[_ Hg] _]. apply Nat.eqb_eq in Hg. lia.
Qed.

(** X6. A correct answer does not stop the countdown.  If the time runs
    out during the delay that follows it, the solved round is counted as
    a miss as well: the score keeps the points just won, [wrongAttempts]
    goes up by one, the feedback turns to [wrong] over the same three
    bubbles, and both the level advance and a restart are pending. *)
Theorem solved_round_can_still_time_out :
  forall (i : string) (s : State),
    gameOver s = false -> feedbackStatus s = neutral -> isTourActive s = false ->
    includes (selectedIds s) i = false -> List.length (selectedIds s) = 2%nat ->
    isCorrect (equations s) (selectedIds s ++ [i]) = true ->
    timerOn s = true -> fleb (timeLeft s) n01 = true ->
    let s1 := step (EvBubbleClick i) s in
    let s2 := step EvTick s1 in
    enabled EvTick s1 = true /\
    feedbackStatus s1 = correct /\
    feedbackStatus s2 = wrong /\
    wrongAttempts s2 = wrongAttempts s + 1 /\
    score s2 = score s + (level s * 10 + floor (timeLeft s)) /\
    level s2 = level s /\
    selectedIds s2 = selectedIds s ++ [i] /\
    isCorrect (equations s2) (selectedIds s2) = true /\
    timeouts s2 = timeouts s ++ [mkTimeout 1000 (CbAdvance (level s));
                                 mkTimeout 1000 (CbRestart (level s))].
Proof.
  intros i s Hover Hfb Htour Hnew Hlen Hok Hon Hexp s1 s2.
  subst s2 s1.
  rewrite step_tick, (correct_tap i s) by assumption.
  unfold tick. simpl. rewrite Hexp. simpl. rewrite <- app_assoc. simpl.
  repeat split; try assumption; lia.
Qed.

(** X7. What that race leaves behind.  The level advance, scheduled
    first, fires first: the level goes up and a batch for the new level is
    installed.  Then the restart scheduled by the expiry fires: it calls
    [startLevel] with the level it captured, so the round on display is
    replaced by a batch generated for the old level while the level shown
    stays the new one. *)
Theorem late_restart_uses_old_level :
  forall (i : string) (s : State),
    gameOver s = false -> feedbackStatus s = neutral -> isTourActive s = false ->
    includes (selectedIds s) i = false -> List.length (selectedIds s) = 2%nat ->
    isCorrect (equations s) (selectedIds s ++ [i]) = true ->
    timerOn s = true -> fleb (timeLeft s) n01 = true ->
    let s2 := step EvTick (step (EvBubbleClick i) s) in
    let s3 := step (EvTimeout (List.length (timeouts s))) s2 in
    let s4 := step (EvTimeout (List.length (timeouts s))) s3 in
    (level s3 = level s + 1 /\
     equations s3 = generateEquations (genCalls s) (level s + 1))
    /\ (level s4 = level s + 1 /\
        equations s4 = generateEquations (S (genCalls s)) (level s) /\
        timeouts s4 = timeouts s /\
        wrongAttempts s4 = wrongAttempts s + 1).
Proof.
  intros i s Hover Hfb Htour Hnew Hlen Hok Hon Hexp s2 s3 s4.
  assert (Hs2 : s2 =
     setTimeLeft (fun _ => n0)
       (setTimeout (CbRestart (level s)) 1000
          (setFeedbackStatus wrong
             (setWrongAttempts (fun prev => prev + 1)
                (clearInterval
                   (setTimeout (CbAdvance (level s)) 1000
                      (setScore (fun prev => prev + (level s * 10) + floor (timeLeft s))
                         (setFeedbackStatus correct
                            (setSelectedIds (fun _ => selectedIds s ++ [i]) s))))))))).
  { subst s2.
    rewrite step_tick, (correct_tap i s) by assumption.
    unfold tick. simpl. now rewrite Hexp. }
  assert (Ht2 : timeouts s2 =
                timeouts s ++ mkTimeout 1000 (CbAdvance (level s))
                              :: [mkTimeout 1000 (CbRestart (level s))]).
  { rewrite Hs2. simpl. now rewrite <- app_assoc. }
  assert (Hf2 : level s2 = level s /\ genCalls s2 = genCalls s /\
                wrongAttempts s2 = wrongAttempts s + 1).
  { rewrite Hs2. simpl. repeat split. }
  destruct Hf2 as [Hl2 [Hg2 Hw2]]. clearbody s2. clear Hs2.
  assert (Hp3 : nth_error (timeouts s2) (List.length (timeouts s)) =
                Some (mkTimeout 1000 (CbAdvance (level s)))).
  { rewrite Ht2. apply nth_error_app_head. }
  assert (Hs3 : level s3 = level s + 1 /\
                equations s3 = generateEquations (genCalls s) (level s + 1) /\
                genCalls s3 = S (genCalls s) /\
                timeouts s3 = timeouts s ++ [mkTimeout 1000 (CbRestart (level s))] /\
                wrongAttempts s3 = wrongAttempts s + 1).
  { subst s3. step_fields. rewrite (fire_advance _ s2 1000 (level s) Hp3). simpl.
    rewrite Hl2, Hg2, Hw2, Ht2, removeNth_app_head. repeat split. }
  destruct Hs3 as [Hl3 [He3 [Hg3 [Ht3 Hw3]]]]. clearbody s3.
  assert (Hp4 : nth_error (timeouts s3) (List.length (timeouts s)) =
                Some (mkTimeout 1000 (CbRestart (level s)))).
  { rewrite Ht3. apply nth_error_app_head. }
  split; [now split|].
  subst s4. step_fields. rewrite (fire_restart _ s3 1000 (level s) Hp4). simpl.
  rewrite Hl3, Hg3, Hw3, Ht3, removeNth_app_head, app_nil_r. repeat split.
Qed.

Lemma step_resetTour (s : State) :
  isTourActive s = false ->
  step EvResetTour s = setTimerOn false (setIsTourActive true (setHasSeenTour false s)).
Proof.
  intros Htour. unfold step, commit, depsChanged, timerGuard. simpl.
  rewrite Htour, !Bool.eqb_reflx, Z.eqb_refl, Nat.eqb_refl. simpl.
  now rewrite !andb_false_r.
Qed.

Lemma step_endTour (s : State) :
  isTourActive s = true ->
  step EvEndTour s =
  setTimerOn (isPlaying s && negb (gameOver s))
    (setHasSeenTour true (setIsTourActive false s)).
Proof.
  intros Htour. unfold step, commit, depsChanged, timerGuard. simpl.
  rewrite Htour, !Bool.eqb_reflx, Z.eqb_refl, Nat.eqb_refl. simpl.
  now rewrite andb_true_r.
Qed.

Lemma zero_is_expired : fleb n0 n01 = true.
Proof. reflexivity. Qed.

(** X8. The expiring tick clears the interval: right after it no tick
    can happen, and a tap does not bring the interval back.  The restart
    re-installs it when it fires, exactly if the game is still being
    played, is not over and the tour is closed.  But the tour does too:
    if "Reset Tour" is pressed and the tour ended before the restart
    fires, the interval runs again with [timeLeft] still 0, and its next
    tick counts a second miss for the same expiry. *)
Theorem expiry_pauses_countdown_until_restart :
  (forall s : State,
     fleb (timeLeft s) n01 = true -> enabled EvTick (step EvTick s) = false)
  /\ (forall (i : string) (s : State),
        enabled EvTick (step (EvBubbleClick i) s) = enabled EvTick s)
  /\ (forall (n : nat) (s : State) (ms lvl : Z),
        nth_error (timeouts s) n = Some (mkTimeout ms (CbRestart lvl)) ->
        enabled EvTick (step (EvTimeout n) s) =
        isPlaying s && negb (gameOver s) && negb (isTourActive s))
  /\ (forall s : State,
        fleb (timeLeft s) n01 = true ->
        isPlaying s = true -> gameOver s = false -> isTourActive s = false ->
        let s3 := step EvEndTour (step EvResetTour (step EvTick s)) in
        enabled EvTick s3 = true /\ timeLeft s3 = n0 /\
        wrongAttempts s3 = wrongAttempts s + 1 /\
        wrongAttempts (step EvTick s3) = wrongAttempts s + 2).
Proof.
  split; [|split; [|split]].
  - intros s Hexp. rewrite step_tick.
    unfold tick. rewrite Hexp. reflexivity.
  - intros i s. rewrite step_tap. simpl. apply handleBubbleClick_timerOn.
  - intros n s ms lvl Hpending. simpl.
    now destruct (restart_fires n s ms lvl Hpending) as [_ [_ [_ [_ H]]]].
  - intros s Hexp Hplay Hover Htour s3.
    assert (Hs3 : s3 =
      setTimerOn true
        (setHasSeenTour true
           (setIsTourActive false
              (setTimerOn false
                 (setIsTourActive true
                    (setHasSeenTour false (tick s))))))).
    { subst s3. rewrite step_tick.
      assert (Ht : isPlaying (tick s) = true /\ gameOver (tick s) = false /\
                   isTourActive (tick s) = false).
      { unfold tick. rewrite Hexp. simpl. now repeat split. }
      destruct Ht as [Hp [Ho Ht]].
      rewrite (step_resetTour _ Ht), step_endTour by reflexivity.
      simpl. now rewrite Hp, Ho. }
    rewrite step_tick, Hs3. unfold tick. rewrite Hexp.
    cbn [timeLeft setTimerOn setHasSeenTour setIsTourActive setTimeLeft
         handleTimeUp setTimeout setFeedbackStatus setWrongAttempts clearInterval
         wrongAttempts timerOn enabled].
    rewrite zero_is_expired.
    cbn [timeLeft setTimerOn setHasSeenTour setIsTourActive setTimeLeft
         handleTimeUp setTimeout setFeedbackStatus setWrongAttempts clearInterval
         wrongAttempts timerOn enabled].
    repeat split; lia.
Qed.

(** ** The tour and the countdown *)

Lemma run_ignored_taps (taps : list string) (s : State) :
  (forall i : string, step (EvBubbleClick i) s = s) ->
  run (map EvBubbleClick taps) s = s.
Proof.
  intros Hign. induction taps as [|i taps IH]; simpl; [reflexivity|].
  rewrite Hign. now destruct (isPlaying s).
Qed.

(** X9. Pressing "Reset Tour" removes the countdown interval and makes
    every tap a no-op; the timeouts pending at that moment stay pending,
    they are not suspended.  If nothing but taps happens until the tour
    ends, ending it installs the interval again (if the game is still on)
    with the time that was left, the same equations, selection, level,
    score, miss count, feedback and pending timeouts. *)
Theorem tour_suspends_round :
  forall s : State,
    isTourActive s = false ->
    let s1 := step EvResetTour s in
    (enabled EvTick s1 = false /\
     (forall i : string, step (EvBubbleClick i) s1 = s1) /\
     hasSeenTour s1 = false /\ timeouts s1 = timeouts s)
    /\ (forall taps : list string,
          let s2 := step EvEndTour (run (map EvBubbleClick taps) s1) in
          enabled EvTick s2 = isPlaying s && negb (gameOver s) /\
          isTourActive s2 = false /\ hasSeenTour s2 = true /\
          timeLeft s2 = timeLeft s /\ equations s2 = equations s /\
          selectedIds s2 = selectedIds s /\ level s2 = level s /\
          score s2 = score s /\ wrongAttempts s2 = wrongAttempts s /\
          feedbackStatus s2 = feedbackStatus s /\ timeouts s2 = timeouts s).
Proof.
  intros s Htour s1.
  assert (Hs1 : s1 = setTimerOn false (setIsTourActive true (setHasSeenTour false s))).
  { subst s1. unfold step, commit, depsChanged, timerGuard. simpl.
    rewrite Htour, !Bool.eqb_reflx, Z.eqb_refl, Nat.eqb_refl. simpl.
    now rewrite !andb_false_r. }
  assert (Hign : forall i : string, step (EvBubbleClick i) s1 = s1).
  { intros i. rewrite Hs1, step_tap. unfold handleBubbleClick. simpl.
    now rewrite orb_true_r. }
  split.
  - split; [now rewrite Hs1|]. split; [exact Hign|]. now rewrite Hs1.
  - intros taps s2. subst s2. rewrite (run_ignored_taps taps s1 Hign), Hs1.
    unfold step, commit, depsChanged, timerGuard. simpl.
    rewrite !Bool.eqb_reflx, Z.eqb_refl, Nat.eqb_refl. simpl.
    rewrite andb_true_r. repeat split.
Qed.

Lemma run_tour_stays_closed (evs : list Event) (s : State) :
  ~ In EvResetTour evs -> isTourActive s = false -> hasSeenTour s = true ->
  isTourActive (run evs s) = false /\ hasSeenTour (run evs s) = true.
Proof.
  revert s. induction evs as [|ev evs IH]; intros s Hno Htour Hseen; simpl.
  - now split.
  - assert (Hev : ev <> EvResetTour) by (intros ->; apply Hno; now left).
    assert (Hno' : ~ In EvResetTour evs) by (intros H; apply Hno; now right).
    destruct (enabled ev s); [|now apply IH].
    destruct (tour_stays_closed ev s Hev Htour Hseen) as [H1 H2]. now apply IH.
Qed.

(** X10. The tour opens by itself only for a visitor who has not ended
    it before.  Starting a game with the flag unset opens the tour and
    keeps the countdown from starting; once the tour has been ended, no
    run of events opens it again, new games included, unless "Reset
    Tour" is pressed. *)
Theorem tour_opens_until_ended_once :
  (forall s : State,
     hasSeenTour s = false ->
     isTourActive (step EvStartGame s) = true /\
     enabled EvTick (step EvStartGame s) = false)
  /\ (forall s : State,
        hasSeenTour s = true -> isTourActive s = false ->
        isTourActive (step EvStartGame s) = false /\
        enabled EvTick (step EvStartGame s) = true)
  /\ (forall (evs : list Event) (s : State),
        ~ In EvResetTour evs ->
        isTourActive (run evs (step EvEndTour s)) = false /\
        hasSeenTour (run evs (step EvEndTour s)) = true).
Proof.
  split; [|split].
  - intros s Hseen. unfold step, commit, depsChanged, timerGuard. simpl handle.
    unfold startGame. rewrite Hseen. simpl.
    destruct (Nat.eqb_spec (genCalls s) (S (genCalls s))) as [E|_]; [lia|].
    rewrite !andb_false_r. simpl. now split.
  - intros s Hseen Htour. unfold step, commit, depsChanged, timerGuard. simpl handle.
    unfold startGame. rewrite Hseen. simpl.
    destruct (Nat.eqb_spec (genCalls s) (S (genCalls s))) as [E|_]; [lia|].
    rewrite !andb_false_r. simpl. now rewrite Htour.
  - intros evs s Hno. apply run_tour_stays_closed; [exact Hno| |].
    + now rewrite step_isTourActive.
    + now rewrite step_hasSeenTour.
Qed.

(** ** A new game and the timeouts of the last one *)

(** X11. "Play Again" resets the score, the level and the miss count
    and starts a round, but it leaves the pending timeouts pending.  A
    level advance left over from the game before still fires in the new
    game: the level becomes 2 with the score at 0, and the first batch is
    replaced by one generated for the level the old game was to reach. *)
Theorem new_game_keeps_old_timeouts :
  forall (n : nat) (s : State) (ms lvl : Z),
    nth_error (timeouts s) n = Some (mkTimeout ms (CbAdvance lvl)) ->
    let s1 := step EvStartGame s in
    let s2 := step (EvTimeout n) s1 in
    (isPlaying s1 = true /\ gameOver s1 = false /\
     score s1 = 0 /\ level s1 = 1 /\ wrongAttempts s1 = 0 /\
     equations s1 = generateEquations (genCalls s) 1 /\
     selectedIds s1 = [] /\ timeLeft s1 = n15 /\ feedbackStatus s1 = neutral /\
     timeouts s1 = timeouts s)
    /\ (level s2 = 2 /\ score s2 = 0 /\
        equations s2 = generateEquations (S (genCalls s)) (lvl + 1) /\
        timeouts s2 = removeNth n (timeouts s)).
Proof.
  intros n s ms lvl Hpending s1 s2.
  assert (Hs1 : isPlaying s1 = true /\ gameOver s1 = false /\
                score s1 = 0 /\ level s1 = 1 /\ wrongAttempts s1 = 0 /\
                equations s1 = generateEquations (genCalls s) 1 /\
                selectedIds s1 = [] /\ timeLeft s1 = n15 /\
                feedbackStatus s1 = neutral /\ timeouts s1 = timeouts s /\
                genCalls s1 = S (genCalls s)).
  { subst s1. step_fields. simpl. unfold startGame.
    destruct (negb (hasSeenTour s)); simpl; repeat split. }
  destruct Hs1 as [H1 [H2 [H3 [H4 [H5 [H6 [H7 [H8 [H9 [H10 H11]]]]]]]]]].
  clearbody s1.
  split; [repeat split; assumption|].
  assert (Hp : nth_error (timeouts s1) n = Some (mkTimeout ms (CbAdvance lvl)))
    by now rewrite H10.
  subst s2. step_fields. rewrite (fire_advance n s1 ms lvl Hp). simpl.
  rewrite H3, H4, H10, H11. repeat split.
Qed.

(** ** Correcting a selection *)

Lemma validateSelection_equations (c : State) (selected : list string) (s : State) :
  equations (validateSelection c selected s) = equations s.
Proof. unfold validateSelection. now destruct (isCorrect (equations c) selected). Qed.

Lemma reachable_selection_NoDup (s : State) : reachable s -> NoDup (selectedIds s).
Proof.
  induction 1 as [seen|s ev Hreach IH Hen]; [constructor|].
  rewrite step_selectedIds. now apply handle_NoDup.
Qed.

Lemma deselect_absent (l : list string) (i : string) :
  ~ In i l -> filter (fun selectedId => negb (String.eqb selectedId i)) l = l.
Proof.
  induction l as [|x l IH]; intros Hnotin; simpl; [reflexivity|].
  destruct (String.eqb_spec x i) as [->|_]; simpl.
  - exfalso. apply Hnotin. now left.
  - rewrite IH; [reflexivity|]. intros Hin. apply Hnotin. now right.
Qed.

Lemma deselect_length (l : list string) (i : string) :
  NoDup l -> In i l ->
  S (List.length (filter (fun selectedId => negb (String.eqb selectedId i)) l)) =
  List.length l.
Proof.
  induction l as [|x l IH]; intros Hnd Hin; [contradiction|].
  inversion Hnd as [|? ? Hx Hnd']; subst. simpl.
  destruct (String.eqb_spec x i) as [->|Hne]; simpl.
  - now rewrite deselect_absent.
  - destruct Hin as [->|Hin]; [congruence|]. now rewrite IH.
Qed.

Lemma includes_deselect (l : list string) (i : string) :
  includes (filter (fun selectedId => negb (String.eqb selectedId i)) l) i = false.
Proof. apply includes_false_iff. rewrite in_deselect. tauto. Qed.

(** X12. How a wrong order is put right.  With three distinct ids
    selected and the feedback back to neutral, tapping one of them takes
    it out without validating, and tapping it again puts it at the end of
    the selection and validates the new order, against the same
    equations. *)
Theorem retap_moves_to_end_and_validates :
  forall (i : string) (s : State),
    gameOver s = false -> feedbackStatus s = neutral -> isTourActive s = false ->
    NoDup (selectedIds s) -> List.length (selectedIds s) = 3%nat ->
    In i (selectedIds s) ->
    let others := filter (fun selectedId => negb (String.eqb selectedId i)) (selectedIds s) in
    let s1 := step (EvBubbleClick i) s in
    let s2 := step (EvBubbleClick i) s1 in
    (selectedIds s1 = others /\ List.length others = 2%nat /\
     feedbackStatus s1 = neutral /\ wrongAttempts s1 = wrongAttempts s /\
     score s1 = score s)
    /\ (selectedIds s2 = others ++ [i] /\
        equations s2 = equations s /\
        feedbackStatus s2 =
          if isCorrect (equations s) (others ++ [i]) then correct else wrong).
Proof.
  intros i s Hover Hfb Htour Hnd Hlen Hin others s1 s2.
  assert (Hlen2 : List.length others = 2%nat).
  { pose proof (deselect_length _ i Hnd Hin) as H. fold others in H. lia. }
  assert (Hs1 : s1 = setSelectedIds (fun _ => others) s).
  { subst s1. rewrite step_tap, (tap_accepted i s Hover Hfb Htour).
    apply includes_true_iff in Hin. now rewrite Hin. }
  split.
  - rewrite Hs1. simpl. repeat split; assumption.
  - subst s2. rewrite Hs1, step_tap.
    rewrite third_tap_validates; try assumption; simpl;
      try apply includes_deselect; try assumption.
    rewrite validateSelection_selectedIds, validateSelection_feedback,
      validateSelection_equations. simpl.
    repeat split.
Qed.

(** ** The number on a bubble *)

Lemma indexOf_absent (l : list string) (i : string) :
  ~ In i l -> indexOf l i = -1.
Proof.
  induction l as [|x l IH]; intros Hnotin; simpl; [reflexivity|].
  destruct (String.eqb_spec x i) as [->|_].
  - exfalso. apply Hnotin. now left.
  - rewrite IH; [reflexivity|]. intros Hin. apply Hnotin. now right.
Qed.

Lemma indexOf_present (l : list string) (i : string) :
  In i l ->
  0 <= indexOf l i < Z.of_nat (List.length l) /\
  nth_error l (Z.to_nat (indexOf l i)) = Some i.
Proof.
  induction l as [|x l IH]; intros Hin; [contradiction|].
  simpl indexOf. destruct (String.eqb_spec x i) as [->|Hne].
  - split; [simpl List.length; lia | reflexivity].
  - destruct Hin as [->|Hin]; [congruence|].
    destruct (IH Hin) as [Hrange Hnth].
    destruct (Z.eqb_spec (indexOf l i) (-1)) as [E|_]; [lia|].
    split; [simpl List.length; lia|].
    replace (Z.to_nat (indexOf l i + 1)) with (S (Z.to_nat (indexOf l i))) by lia.
    exact Hnth.
Qed.

Lemma indexOf_nth (l : list string) (i : string) (k : nat) :
  NoDup l -> nth_error l k = Some i -> indexOf l i = Z.of_nat k.
Proof.
  revert k. induction l as [|x l IH]; intros k Hnd Hnth; [now destruct k|].
  inversion Hnd as [|? ? Hx Hnd']; subst. simpl indexOf.
  destruct k as [|k]; simpl in Hnth.
  - injection Hnth as ->. now rewrite String.eqb_refl.
  - destruct (String.eqb_spec x i) as [->|_].
    + exfalso. apply Hx. eapply nth_error_In; eassumption.
    + rewrite (IH k Hnd' Hnth).
      destruct (Z.eqb_spec (Z.of_nat k) (-1)) as [E|_]; lia.
Qed.

(** X13. The number drawn on a bubble is its place in the order of
    tapping: 0 exactly for a bubble that is not selected, and [k + 1] for
    the bubble tapped as [k]-th (counting from 0) of the current selection;
    two selected bubbles with different ids never carry the same number. *)
Theorem bubble_order_is_tap_position :
  forall (s : State) (e : Equation),
    reachable s ->
    (isSelected (bubbleProps s e) = false <-> order (bubbleProps s e) = 0)
    /\ (isSelected (bubbleProps s e) = true <->
          1 <= order (bubbleProps s e) <= Z.of_nat (List.length (selectedIds s)))
    /\ (forall k : nat,
          nth_error (selectedIds s) k = Some (id e) ->
          order (bubbleProps s e) = Z.of_nat k + 1)
    /\ (forall e' : Equation,
          isSelected (bubbleProps s e) = true ->
          order (bubbleProps s e') = order (bubbleProps s e) ->
          id e' = id e).
Proof.
  intros s e Hreach. pose proof (reachable_selection_NoDup s Hreach) as Hnd.
  simpl.
  assert (Hcases : (includes (selectedIds s) (id e) = false /\
                    indexOf (selectedIds s) (id e) = -1) \/
                   (includes (selectedIds s) (id e) = true /\
                    0 <= indexOf (selectedIds s) (id e)
                      < Z.of_nat (List.length (selectedIds s)))).
  { destruct (includes (selectedIds s) (id e)) eqn:Hinc.
    - right. split; [reflexivity|]. apply includes_true_iff in Hinc.
      now apply indexOf_present.
    - left. split; [reflexivity|]. apply includes_false_iff in Hinc.
      now apply indexOf_absent. }
  split; [|split; [|split]].
  - destruct Hcases as [[-> Hi]|[-> Hi]]; split; intros; try lia; congruence.
  - destruct Hcases as [[-> Hi]|[-> Hi]]; split; intros; try lia; congruence.
  - intros k Hnth. now rewrite (indexOf_nth _ _ k Hnd Hnth).
  - intros e' Hsel Heq. apply includes_true_iff in Hsel.
    destruct (indexOf_present _ _ Hsel) as [Hrange Hnth].
    assert (Hin' : In (id e') (selectedIds s)).
    { destruct (in_dec string_dec (id e') (selectedIds s)) as [H|H]; [exact H|].
      rewrite (indexOf_absent _ _ H) in Heq. lia. }
    destruct (indexOf_present _ _ Hin') as [_ Hnth'].
    replace (indexOf (selectedIds s) (id e')) with (indexOf (selectedIds s) (id e))
      in Hnth' by lia.
    congruence.
Qed.

Lemma indexOf_snoc_new (l : list string) (i : string) :
  ~ In i l -> indexOf (l ++ [i]) i = Z.of_nat (List.length l).
Proof.
  induction l as [|x l IH]; intros Hnotin.
  - simpl. now rewrite String.eqb_refl.
  - simpl indexOf. destruct (String.eqb_spec x i) as [->|_].
    + exfalso. apply Hnotin. now left.
    + rewrite IH by (intros Hin; apply Hnotin; now right).
      destruct (Z.eqb_spec (Z.of_nat (List.length l)) (-1)) as [E|_];
        simpl List.length; lia.
Qed.

Lemma indexOf_snoc_old (l : list string) (i j : string) :
  In j l -> indexOf (l ++ [i]) j = indexOf l j.
Proof.
  induction l as [|x l IH]; intros Hin; [contradiction|].
  simpl. destruct (String.eqb_spec x j) as [_|Hne]; [reflexivity|].
  destruct Hin as [->|Hin]; [congruence|]. now rewrite IH.
Qed.

Lemma indexOf_deselect (l : list string) (i j : string) :
  NoDup l -> In i l -> In j l -> j <> i ->
  indexOf (filter (fun selectedId => negb (String.eqb selectedId i)) l) j =
  if indexOf l j <? indexOf l i then indexOf l j else indexOf l j - 1.
Proof.
  induction l as [|x l IH]; intros Hnd Hi Hj Hne; [contradiction|].
  inversion Hnd as [|? ? Hx Hnd']; subst.
  simpl filter. simpl indexOf.
  destruct (String.eqb_spec x i) as [->|Hxi]; simpl negb; cbv iota.
  - (* the deselected id is the head *)
    destruct Hj as [->|Hj]; [congruence|].
    destruct (String.eqb_spec i j) as [->|_]; [congruence|].
    rewrite (deselect_absent l i Hx).
    destruct (indexOf_present l j Hj) as [Hrange _].
    destruct (Z.eqb_spec (indexOf l j) (-1)) as [E|_]; [lia|].
    destruct (Z.ltb_spec (indexOf l j + 1) 0); lia.
  - destruct Hi as [->|Hi]; [congruence|].
    destruct (indexOf_present l i Hi) as [Hri _].
    destruct (Z.eqb_spec (indexOf l i) (-1)) as [E|_]; [lia|].
    simpl indexOf.
    destruct (String.eqb_spec x j) as [->|Hxj].
    + destruct (Z.ltb_spec 0 (indexOf l i + 1)); lia.
    + destruct Hj as [->|Hj]; [congruence|].
      destruct (indexOf_present l j Hj) as [Hrj Hnj].
      assert (Hdiff : indexOf l j <> indexOf l i).
      { intros Heq. destruct (indexOf_present l i Hi) as [_ Hni].
        rewrite Heq in Hnj. congruence. }
      rewrite (IH Hnd' Hi Hj Hne).
      destruct (Z.eqb_spec (indexOf l j) (-1)) as [E|_]; [lia|].
      destruct (Z.ltb_spec (indexOf l j) (indexOf l i));
        destruct (Z.ltb_spec (indexOf l j + 1) (indexOf l i + 1)); try lia;
        cbv iota.
      * destruct (Z.eqb_spec (indexOf l j) (-1)); lia.
      * destruct (Z.eqb_spec (indexOf l j - 1) (-1)); lia.
Qed.

(** X14. How taps renumber the bubbles.  In a state that accepts taps,
    a newly tapped bubble gets the next number and the others keep
    theirs; when a bubble is deselected its number goes to 0, the bubbles
    tapped before it keep their numbers and those tapped after it move
    down by one. *)
Theorem taps_renumber_bubbles :
  forall (s : State) (e : Equation),
    reachable s ->
    gameOver s = false -> feedbackStatus s = neutral -> isTourActive s = false ->
    let s1 := step (EvBubbleClick (id e)) s in
    (isSelected (bubbleProps s e) = false ->
       order (bubbleProps s1 e) = Z.of_nat (List.length (selectedIds s)) + 1 /\
       forall e' : Equation,
         isSelected (bubbleProps s e') = true ->
         order (bubbleProps s1 e') = order (bubbleProps s e'))
    /\ (isSelected (bubbleProps s e) = true ->
          order (bubbleProps s1 e) = 0 /\
          forall e' : Equation,
            isSelected (bubbleProps s e') = true -> id e' <> id e ->
            order (bubbleProps s1 e') =
            if order (bubbleProps s e') <? order (bubbleProps s e)
            then order (bubbleProps s e') else order (bubbleProps s e') - 1).
Proof.
  intros s e Hreach Hover Hfb Htour s1.
  pose proof (reachable_selection_NoDup s Hreach) as Hnd.
  subst s1. rewrite step_tap, (tap_accepted (id e) s Hover Hfb Htour).
  simpl. split.
  - intros Hnew. rewrite Hnew. apply includes_false_iff in Hnew.
    assert (Hsel :
              selectedIds (if (List.length (selectedIds s ++ [id e]) =? 3)%nat
                           then validateSelection s (selectedIds s ++ [id e])
                                  (setSelectedIds (fun _ => selectedIds s ++ [id e]) s)
                           else setSelectedIds (fun _ => selectedIds s ++ [id e]) s)
              = selectedIds s ++ [id e]).
    { destruct (List.length (selectedIds s ++ [id e]) =? 3)%nat;
        [now rewrite validateSelection_selectedIds | reflexivity]. }
    rewrite Hsel. split.
    + now rewrite indexOf_snoc_new.
    + intros e' Hsel'. apply includes_true_iff in Hsel'.
      now rewrite indexOf_snoc_old.
  - intros Hold. rewrite Hold. simpl. apply includes_true_iff in Hold. split.
    + rewrite indexOf_absent; [reflexivity|]. rewrite in_deselect. tauto.
    + intros e' Hsel' Hne. apply includes_true_iff in Hsel'.
      rewrite (indexOf_deselect _ _ _ Hnd Hold Hsel' Hne).
      destruct (Z.ltb_spec (indexOf (selectedIds s) (id e'))
                           (indexOf (selectedIds s) (id e)));
        destruct (Z.ltb_spec (indexOf (selectedIds s) (id e') + 1)
                             (indexOf (selectedIds s) (id e) + 1)); lia.
Qed.

(** ** The selection and the bubbles on display *)

Lemma handleBubbleClick_equations (i : string) (s : State) :
  equations (handleBubbleClick i s) = equations s.
Proof. tap_cases s i; reflexivity. Qed.

Lemma handleBubbleClick_selection_incl (i : string) (s : State) (ids : list string) :
  incl (selectedIds s) ids -> In i ids ->
  incl (selectedIds (handleBubbleClick i s)) ids.
Proof.
  intros Hincl Hin. tap_cases s i; simpl; try exact Hincl.
  - intros j Hj. apply in_deselect in Hj. apply Hincl. tauto.
  - intros j Hj. apply in_app_iff in Hj. destruct Hj as [Hj|[<-|[]]]; auto.
  - intros j Hj. apply in_app_iff in Hj. destruct Hj as [Hj|[<-|[]]]; auto.
  - intros j Hj. apply in_app_iff in Hj. destruct Hj as [Hj|[<-|[]]]; auto.
Qed.

(** X15. As long as the taps are on bubbles that are on display, the
    selection only holds ids of the batch on display and is never longer
    than the batch: with three bubbles drawn, at most three are selected. *)
Theorem selection_stays_on_display :
  forall (ev : Event) (s : State),
    NoDup (selectedIds s) ->
    incl (selectedIds s) (map id (equations s)) ->
    (forall i : string, ev = EvBubbleClick i -> In i (map id (equations s))) ->
    incl (selectedIds (step ev s)) (map id (equations (step ev s))) /\
    (List.length (selectedIds (step ev s)) <= List.length (equations (step ev s)))%nat.
Proof.
  intros ev s Hnd Hincl Htap.
  assert (H : incl (selectedIds (step ev s)) (map id (equations (step ev s)))).
  { step_fields. destruct ev; simpl; try exact Hincl.
    - unfold startGame. destruct (negb (hasSeenTour s)); simpl; intros j [].
    - rewrite handleBubbleClick_equations.
      apply handleBubbleClick_selection_incl; [exact Hincl|]. now apply Htap.
    - unfold tick. now destruct (fleb (timeLeft s) n01).
    - fire_cases s n; simpl; try (intros j []); exact Hincl. }
  split; [exact H|].
  rewrite <- (length_map id (equations (step ev s))).
  apply NoDup_incl_length; [|exact H].
  rewrite step_selectedIds. now apply handle_NoDup.
Qed.





(** X17. [validateSelection] needs three values: called on fewer than
    three ids it takes the wrong branch, whatever the equations, because a
    comparison with a missing array element is false; called on more than
    three it looks at the first three only. *)
Theorem validation_needs_three_values :
  (forall (c s : State) (selected : list string),
     (List.length selected < 3)%nat ->
     isCorrect (equations c) selected = false /\
     feedbackStatus (validateSelection c selected s) = wrong /\
     wrongAttempts (validateSelection c selected s) = wrongAttempts s + 1 /\
     score (validateSelection c selected s) = score s)
  /\ (forall (eqs : list Equation) (a b c3 : string) (rest : list string),
        isCorrect eqs (a :: b :: c3 :: rest) = isCorrect eqs [a; b; c3]).
Proof.
  split.
  - intros c s selected Hlen.
    assert (Hbad : isCorrect (equations c) selected = false).
    { destruct selected as [|a [|b [|c3 rest]]]; simpl in Hlen; try lia;
        unfold isCorrect; simpl; try reflexivity.
      now rewrite andb_false_r. }
    split; [exact Hbad|]. unfold validateSelection. rewrite Hbad. simpl.
    repeat split.
  - reflexivity.
Qed.

(** ** How long a round lasts *)

Lemma early_ticks_checked :
  forallb (fun j => negb (fleb (Nat.iter j tickValue n15) n01)) (seq 0 150) = true.
Proof. vm_compute. reflexivity. Qed.

Lemma early_ticks_run (j : nat) :
  (j < 150)%nat -> fleb (Nat.iter j tickValue n15) n01 = false.
Proof.
  intros Hlt.
  pose proof (proj1 (forallb_forall _ _) early_ticks_checked j) as H.
  apply negb_true_iff, H, in_seq. lia.
Qed.

Lemma last_tick_checked :
  fleb (Nat.iter 150 tickValue n15) n01 = true /\
  fleb n0 (Nat.iter 150 tickValue n15) = true /\
  number_eqb (Nat.iter 150 tickValue n15) n0 = false.
Proof. vm_compute. repeat split; reflexivity. Qed.

Lemma tickValue_running (t : number) :
  fleb t n01 = false -> tickValue t = fsub t n01.
Proof. intros H. unfold tickValue. now rewrite H. Qed.

Lemma run_early_ticks (k : nat) (s : State) :
  timerOn s = true ->
  (forall j, (j < k)%nat -> fleb (Nat.iter j tickValue (timeLeft s)) n01 = false) ->
  run (repeat EvTick k) s =
  setTimeLeft (fun _ => Nat.iter k tickValue (timeLeft s)) s.
Proof.
  revert s. induction k as [|k IH]; intros s Hon Hearly.
  - now destruct s.
  - assert (H0 : fleb (timeLeft s) n01 = false) by (apply (Hearly 0%nat); lia).
    assert (E : forall j, Nat.iter (S j) tickValue (timeLeft s) =
                          Nat.iter j tickValue (fsub (timeLeft s) n01)).
    { intros j. now rewrite Nat.iter_succ_r, (tickValue_running _ H0). }
    change (repeat EvTick (S k)) with (EvTick :: repeat EvTick k).
    change (run (EvTick :: repeat EvTick k) s)
      with (run (repeat EvTick k) (if timerOn s then step EvTick s else s)).
    rewrite Hon, step_tick. unfold tick. rewrite H0, IH.
    + rewrite E. reflexivity.
    + exact Hon.
    + intros j Hj. change (timeLeft (setTimeLeft (fun prev => fsub prev n01) s))
        with (fsub (timeLeft s) n01).
      rewrite <- E. apply Hearly. lia.
Qed.

(** X18. A round lasts 151 ticks, not 150.  Counting down from 15 in
    binary64, the first 150 ticks only lower [timeLeft] and change nothing
    else; what is left after them is greater than 0 although it is below
    0.1; the 151st tick is the one that expires: it counts the miss, sets
    [timeLeft] to 0 and clears the interval. *)
Theorem round_lasts_151_ticks :
  forall s : State,
    timeLeft s = n15 -> timerOn s = true ->
    (forall k : nat,
       (k <= 150)%nat ->
       run (repeat EvTick k) s =
       setTimeLeft (fun _ => Nat.iter k tickValue n15) s)
    /\ (timeLeft (run (repeat EvTick 150) s) <> n0 /\
        fleb n0 (timeLeft (run (repeat EvTick 150) s)) = true)
    /\ (let s' := run (repeat EvTick 151) s in
        timeLeft s' = n0 /\ wrongAttempts s' = wrongAttempts s + 1 /\
        feedbackStatus s' = wrong /\ timerOn s' = false /\
        timeouts s' = timeouts s ++ [mkTimeout 1000 (CbRestart (level s))]).
Proof.
  intros s Hstart Hon.
  assert (Hrun : forall k : nat, (k <= 150)%nat ->
            run (repeat EvTick k) s =
            setTimeLeft (fun _ => Nat.iter k tickValue n15) s).
  { intros k Hk. rewrite <- Hstart. apply run_early_ticks; [exact Hon|].
    intros j Hj. rewrite Hstart. apply early_ticks_run. lia. }
  destruct last_tick_checked as [Hlast [Hpos Hne]].
  assert (H150 : run (repeat EvTick 150) s =
                 setTimeLeft (fun _ => Nat.iter 150 tickValue n15) s)
    by (apply Hrun; lia).
  split; [exact Hrun|].
  assert (Happ : forall evs evs' s0, run (evs ++ evs') s0 = run evs' (run evs s0)).
  { induction evs as [|ev evs IHe]; intros evs' s0; [reflexivity|]. apply IHe. }
  replace (repeat EvTick 151) with (repeat EvTick 150 ++ [EvTick]) by reflexivity.
  rewrite Happ, H150. clear H150 Hrun.
  set (t150 := Nat.iter 150 tickValue n15) in *. clearbody t150.
  split.
  - cbn [timeLeft setTimeLeft]. split; [|exact Hpos].
    intros Heq. subst t150. discriminate.
  - cbn [run enabled timerOn setTimeLeft]. rewrite Hon, step_tick.
    unfold tick. cbn [timeLeft setTimeLeft]. rewrite Hlast.
    cbn. repeat split.
Qed.

End App.

(** ** The theorems at work on the sample batch *)

Local Open Scope string_scope.





Lemma unmatched_id_resolves_to_zero_witness : resolve sampleBatch "Z" = 0%Q.
Proof.
  apply (proj1 unmatched_id_resolves_to_zero).
  intros e [<-|[<-|[<-|[]]]]; discriminate.
Defined.

Lemma score_delta_of_validation_witness :
  score (step sampleGenerate (EvBubbleClick "C") (roundState ["A"; "B"])) =
  score (roundState ["A"; "B"]) + 37.
Proof.
  exact (proj1 (score_delta_of_validation sampleGenerate "C" (roundState ["A"; "B"])
                  eq_refl eq_refl eq_refl eq_refl eq_refl) eq_refl).
Defined.

Lemma wrong_validation_keeps_round_witness :
  selectedIds (step sampleGenerate (EvBubbleClick "C") (roundState ["B"; "A"])) =
  ["B"; "A"; "C"].
Proof.
  exact (proj1 (proj1 (wrong_validation_keeps_round sampleGenerate "C" (roundState ["B"; "A"])
                         eq_refl eq_refl eq_refl eq_refl eq_refl eq_refl))).
Defined.

Lemma timeout_restarts_same_level_witness :
  wrongAttempts (step sampleGenerate EvTick expiringState) = 1 /\
  level (step sampleGenerate EvTick expiringState) = 2.
Proof.
  assert (Hexp : fleb (timeLeft expiringState) n01 = true) by reflexivity.
  pose proof (proj1 (timeout_restarts_same_level sampleGenerate expiringState Hexp)) as H.
  split; [exact (proj1 H) | exact (proj1 (proj2 H))].
Defined.

Lemma tap_toggles_and_third_tap_validates_witness :
  selectedIds (step sampleGenerate (EvBubbleClick "A") (roundState ["A"; "B"])) = ["B"].
Proof.
  apply (proj1 (proj1 (tap_toggles_and_third_tap_validates sampleGenerate)
                         "A" (roundState ["A"; "B"]) eq_refl eq_refl eq_refl)).
  simpl. now left.
Defined.

Lemma countdown_never_negative_witness :
  timeLeft (step sampleGenerate EvTick (roundState ["A"])) = fsub n74 n01 /\
  fleb n0 (timeLeft (run sampleGenerate [EvStartGame; EvTick; EvTick] (initial true)))
  = true.
Proof.
  split.
  - exact (proj1 (proj1 (countdown_never_negative sampleGenerate) (roundState ["A"])
                    eq_refl)).
  - apply (proj2 (proj2 (proj2 (proj2 (countdown_never_negative sampleGenerate))))).
    apply reachable_run. apply reachable_initial.
Defined.

Lemma selection_has_no_duplicates_witness :
  NoDup (selectedIds
           (run sampleGenerate
              [EvStartGame; EvBubbleClick "A"; EvBubbleClick "B"; EvBubbleClick "A";
               EvBubbleClick "A"] (initial true))).
Proof.
  apply (proj1 (selection_has_no_duplicates sampleGenerate)).
  apply reachable_run. apply reachable_initial.
Defined.

Lemma stop_keeps_pending_advance_witness :
  let s := roundState ["A"; "B"] in
  let s3 := step sampleGenerate (EvTimeout 0)
              (step sampleGenerate EvStopGame (step sampleGenerate (EvBubbleClick "C") s)) in
  gameOver s3 = true /\ timerOn s3 = false /\ level s3 = 4.
Proof.
  pose proof (stop_keeps_pending_advance sampleGenerate "C" (roundState ["A"; "B"])
                eq_refl eq_refl eq_refl eq_refl eq_refl eq_refl) as H.
  destruct H as [_ [_ [H _]]].
  split; [exact (proj1 H)|]. split; [exact (proj1 (proj2 H))|].
  exact (proj1 (proj2 (proj2 H))).
Defined.

(** C3 as the spec states it fails on the code.  Start a game, tap A, B
    and C (values 2, 5, 9: correct), and stop during the delay: the game
    is over at level 1 with the level advance still pending; when it fires
    the level is 2 and a new round has been installed. *)
Lemma stop_then_advance_counterexample :
  let stopped :=
    run sampleGenerate
      [EvStartGame; EvBubbleClick "A"; EvBubbleClick "B"; EvBubbleClick "C"; EvStopGame]
      (initial true) in
  let later := step sampleGenerate (EvTimeout 0) stopped in
  reachable sampleGenerate stopped /\
  gameOver stopped = true /\ level stopped = 1 /\
  selectedIds stopped = ["A"; "B"; "C"] /\ genCalls stopped = 1%nat /\
  timeouts stopped = [mkTimeout 1000 (CbAdvance 1)] /\
  enabled (EvTimeout 0) stopped = true /\
  gameOver later = true /\ level later = 2 /\
  selectedIds later = [] /\ genCalls later = 2%nat /\ timeLeft later = n15.
Proof.
  split; [apply reachable_run; apply reachable_initial|].
  vm_compute. repeat split; reflexivity.
Qed.

(** C6 as the spec states it fails on the code while the onboarding tour
    is open.  A first-time visitor starts a game: feedback is neutral and
    the game is not over, yet a tap on A does not select it.  And after
    selecting A and pressing "Reset Tour", a tap on A does not deselect
    it. *)
Lemma tap_during_tour_counterexample :
  let fresh := run sampleGenerate [EvStartGame] (initial false) in
  let toured := run sampleGenerate [EvStartGame; EvBubbleClick "A"; EvResetTour]
                  (initial true) in
  (reachable sampleGenerate fresh /\ isPlaying fresh = true /\
   feedbackStatus fresh = neutral /\ gameOver fresh = false /\
   isTourActive fresh = true /\ selectedIds fresh = [] /\
   selectedIds (step sampleGenerate (EvBubbleClick "A") fresh) = [])
  /\ (reachable sampleGenerate toured /\ isPlaying toured = true /\
      feedbackStatus toured = neutral /\ gameOver toured = false /\
      isTourActive toured = true /\ selectedIds toured = ["A"] /\
      selectedIds (step sampleGenerate (EvBubbleClick "A") toured) = ["A"]).
Proof.
  split; (split; [apply reachable_run; apply reachable_initial|]);
    vm_compute; repeat split; reflexivity.
Qed.

(** ** The further properties at work on the sample batch *)

Lemma counters_stay_in_range_witness :
  let s := run sampleGenerate
             [EvStartGame; EvBubbleClick "A"; EvBubbleClick "B"; EvBubbleClick "C";
              EvTick; EvTimeout 0] (initial true) in
  1 <= level s /\ 0 <= score s /\ 0 <= wrongAttempts s /\
  fleb n0 (timeLeft s) = true /\ fleb (timeLeft s) n15 = true.
Proof.
  apply (counters_stay_in_range sampleGenerate).
  apply reachable_run. apply reachable_initial.
Defined.

Lemma counters_never_decrease_witness :
  let s := run sampleGenerate [EvStartGame; EvBubbleClick "A"; EvBubbleClick "B"]
             (initial true) in
  score s <= score (step sampleGenerate (EvBubbleClick "C") s).
Proof.
  assert (Hev : EvBubbleClick "C" <> EvStartGame) by discriminate.
  exact (proj1 (counters_never_decrease sampleGenerate (EvBubbleClick "C") _
                  (reachable_run sampleGenerate _ _ (reachable_initial sampleGenerate true))
                  Hev)).
Defined.

Lemma start_screen_never_returns_witness :
  isPlaying (step sampleGenerate EvStopGame (roundState ["A"])) = true.
Proof.
  exact (proj1 (start_screen_never_returns sampleGenerate EvStopGame (roundState ["A"])
                  eq_refl)).
Defined.


Lemma correct_status_is_earned_witness :
  let s := run sampleGenerate
             [EvStartGame; EvBubbleClick "A"; EvBubbleClick "B"; EvBubbleClick "C"]
             (initial true) in
  In (id eqB) (selectedIds s) /\
  List.length (selectedIds s) = 3%nat /\
  isCorrect (equations s) (selectedIds s) = true.
Proof.
  intros s.
  assert (Hreach : reachable sampleGenerate s)
    by (apply reachable_run; apply reachable_initial).
  exact (correct_status_is_earned sampleGenerate s eqB Hreach eq_refl).
Defined.

Lemma solved_round_can_still_time_out_witness :
  wrongAttempts
    (step sampleGenerate EvTick
       (step sampleGenerate (EvBubbleClick "C") lastMomentState)) = 1.
Proof.
  assert (Hexp : fleb (timeLeft lastMomentState) n01 = true) by reflexivity.
  pose proof (solved_round_can_still_time_out sampleGenerate "C" lastMomentState
                eq_refl eq_refl eq_refl eq_refl eq_refl eq_refl eq_refl Hexp) as H.
  exact (proj1 (proj2 (proj2 (proj2 H)))).
Defined.

Lemma late_restart_uses_old_level_witness :
  level
    (step sampleGenerate (EvTimeout 0)
       (step sampleGenerate (EvTimeout 0)
          (step sampleGenerate EvTick
             (step sampleGenerate (EvBubbleClick "C") lastMomentState)))) = 3.
Proof.
  assert (Hexp : fleb (timeLeft lastMomentState) n01 = true) by reflexivity.
  pose proof (late_restart_uses_old_level sampleGenerate "C" lastMomentState
                eq_refl eq_refl eq_refl eq_refl eq_refl eq_refl eq_refl Hexp) as H.
  exact (proj1 (proj2 H)).
Defined.

Lemma expiry_pauses_countdown_until_restart_witness :
  enabled EvTick (step sampleGenerate EvTick expiringState) = false /\
  enabled EvTick
    (step sampleGenerate (EvTimeout 0) (step sampleGenerate EvTick expiringState)) = true /\
  wrongAttempts
    (step sampleGenerate EvTick
       (step sampleGenerate EvEndTour
          (step sampleGenerate EvResetTour
             (step sampleGenerate EvTick expiringState)))) = 2.
Proof.
  split; [|split].
  - exact (proj1 (expiry_pauses_countdown_until_restart sampleGenerate)
             expiringState eq_refl).
  - exact (proj1 (proj2 (proj2 (expiry_pauses_countdown_until_restart sampleGenerate)))
             0%nat (step sampleGenerate EvTick expiringState) 1000 2 eq_refl).
  - exact (proj2 (proj2 (proj2
             (proj2 (proj2 (proj2 (expiry_pauses_countdown_until_restart sampleGenerate)))
                expiringState eq_refl eq_refl eq_refl eq_refl)))).
Defined.

Lemma tour_suspends_round_witness :
  timeLeft
    (step sampleGenerate EvEndTour
       (run sampleGenerate (map EvBubbleClick ["B"; "C"])
          (step sampleGenerate EvResetTour (roundState ["A"])))) = n74.
Proof.
  pose proof (proj2 (tour_suspends_round sampleGenerate (roundState ["A"]) eq_refl)
                ["B"; "C"]) as H.
  exact (proj1 (proj2 (proj2 (proj2 H)))).
Defined.

Lemma tour_opens_until_ended_once_witness :
  isTourActive (step sampleGenerate EvStartGame (initial false)) = true /\
  isTourActive
    (run sampleGenerate [EvStopGame; EvStartGame]
       (step sampleGenerate EvEndTour (step sampleGenerate EvStartGame (initial false))))
  = false.
Proof.
  split.
  - apply (proj1 (tour_opens_until_ended_once sampleGenerate)). reflexivity.
  - apply (proj2 (proj2 (tour_opens_until_ended_once sampleGenerate))).
    simpl. intuition discriminate.
Defined.

Lemma new_game_keeps_old_timeouts_witness :
  let s := step sampleGenerate EvStopGame
             (step sampleGenerate (EvBubbleClick "C") (roundState ["A"; "B"])) in
  level (step sampleGenerate (EvTimeout 0) (step sampleGenerate EvStartGame s)) = 2.
Proof.
  pose proof (new_game_keeps_old_timeouts sampleGenerate 0%nat
                (step sampleGenerate EvStopGame
                   (step sampleGenerate (EvBubbleClick "C") (roundState ["A"; "B"])))
                1000 3 eq_refl) as H.
  exact (proj1 (proj2 H)).
Defined.

Lemma retap_moves_to_end_and_validates_witness :
  selectedIds
    (step sampleGenerate (EvBubbleClick "B")
       (step sampleGenerate (EvBubbleClick "B") (roundState ["B"; "A"; "C"]))) =
  ["A"; "C"; "B"].
Proof.
  assert (Hnd : NoDup (selectedIds (roundState ["B"; "A"; "C"]))).
  { simpl. repeat constructor; simpl; intuition discriminate. }
  assert (Hin : In "B" (selectedIds (roundState ["B"; "A"; "C"]))) by (simpl; now left).
  pose proof (retap_moves_to_end_and_validates sampleGenerate "B" (roundState ["B"; "A"; "C"])
                eq_refl eq_refl eq_refl Hnd eq_refl Hin) as H.
  exact (proj1 (proj2 H)).
Defined.

Lemma bubble_order_is_tap_position_witness :
  let s := run sampleGenerate [EvStartGame; EvBubbleClick "C"; EvBubbleClick "A"]
             (initial true) in
  order (bubbleProps s eqA) = 2.
Proof.
  apply (proj1 (proj2 (proj2 (bubble_order_is_tap_position sampleGenerate
           (run sampleGenerate [EvStartGame; EvBubbleClick "C"; EvBubbleClick "A"]
              (initial true)) eqA
           (reachable_run sampleGenerate _ _ (reachable_initial sampleGenerate true)))))
           1%nat).
  reflexivity.
Defined.

Lemma taps_renumber_bubbles_witness :
  let s := run sampleGenerate [EvStartGame; EvBubbleClick "C"; EvBubbleClick "A"]
             (initial true) in
  order (bubbleProps (step sampleGenerate (EvBubbleClick (id eqC)) s) eqC) = 0.
Proof.
  pose proof (taps_renumber_bubbles sampleGenerate
                (run sampleGenerate [EvStartGame; EvBubbleClick "C"; EvBubbleClick "A"]
                   (initial true)) eqC
                (reachable_run sampleGenerate _ _ (reachable_initial sampleGenerate true))
                eq_refl eq_refl eq_refl) as H.
  exact (proj1 (proj2 H eq_refl)).
Defined.

Lemma selection_stays_on_display_witness :
  (List.length (selectedIds (step sampleGenerate (EvBubbleClick "B") (roundState ["A"])))
   <= List.length (equations (step sampleGenerate (EvBubbleClick "B") (roundState ["A"]))))%nat.
Proof.
  assert (Hnd : NoDup (selectedIds (roundState ["A"]))).
  { simpl. repeat constructor; simpl; intuition discriminate. }
  assert (Hincl : incl (selectedIds (roundState ["A"]))
                       (map id (equations (roundState ["A"])))).
  { simpl. intros j [<-|[]]. simpl. now left. }
  assert (Htap : forall i : string, EvBubbleClick "B" = EvBubbleClick i ->
                                    In i (map id (equations (roundState ["A"])))).
  { intros i Hev. injection Hev as <-. simpl. right. now left. }
  exact (proj2 (selection_stays_on_display sampleGenerate (EvBubbleClick "B")
                  (roundState ["A"]) Hnd Hincl Htap)).
Defined.


Lemma validation_needs_three_values_witness :
  isCorrect (equations (roundState ["A"; "B"])) ["A"; "B"] = false.
Proof.
  apply (proj1 validation_needs_three_values (roundState ["A"; "B"]) (roundState ["A"; "B"])).
  simpl. lia.
Defined.

Lemma round_lasts_151_ticks_witness :
  wrongAttempts
    (run sampleGenerate (repeat EvTick 151) (step sampleGenerate EvStartGame (initial true)))
  = 1.
Proof.
  exact (proj1 (proj2 (proj2 (proj2
           (round_lasts_151_ticks sampleGenerate
              (step sampleGenerate EvStartGame (initial true)) eq_refl eq_refl))))).
Defined.
